(** * poemtok: overlay recolor, page ranges and fallback chains

    A shallow embedding of the parts of the poemtok scripts that carry
    logic of their own:

    - the per-pixel threshold recolor of [poemtok_final.py],
      [poemtok_image.py], [poemtok_styled_text.py] and
      [poemtok_screenshot.py];
    - the page-range adjustment and the per-page loops of [poemtok.py]
      and [poemtok_image.py];
    - the ffmpeg fallback chain of [poemtok_fixed.py];
    - the optional OCR path of [poemtok.py];
    - the line breaking of [poemtok_styled.py] and [poemtok_ffmpeg.py]
      and the escaping of [poemtok_advanced.py];
    - the command lines of [poemtok_final.py], [poemtok_styled_text.py]
      and [poemtok.py], and the layout of [text_styler.py];
    - the batch of [poemtok_screenshot.py] and the fallback of
      [take_screenshots.py].

    Pillow, PyPDF2, pdf2image, moviepy, pytesseract, ffmpeg and ffprobe
    are collaborators outside the repository.  What the scripts observe of
    them (a pixel value, an exit status, a raised exception) is an input
    of the model. *)

From Stdlib Require Import ZArith Lia Bool.
From Stdlib Require Import PrimFloat FloatOps SpecFloat Uint63.
From stdpp Require Import base tactics option list.
From stdpp Require Import gmap strings.

Local Open Scope Z_scope.

(** ** Python values and exceptions *)

Module Py.

(** The exception classes the scripts raise, catch or let through. *)
Inductive exn : Type :=
| IndexError
| ValueError
| OverflowError
| ZeroDivisionError
| ImportError
| CalledProcessError
| OtherError.

#[global] Instance exn_eq_dec : EqDecision exn.
Proof. solve_decision. Defined.

(** A Python computation either returns or raises. *)
Inductive result (A : Type) : Type :=
| Ok (a : A)
| Raise (e : exn).
Arguments Ok {A} a.
Arguments Raise {A} e.

#[global] Instance result_ret : MRet result := fun A a => Ok a.
#[global] Instance result_bind : MBind result := fun A B f m =>
  match m with
  | Ok a => f a
  | Raise e => Raise e
  end.

(** [for x in l: body], threading the mutated object [s]; an exception
    raised by the body leaves the loop. *)
Fixpoint for_each {A S : Type} (body : A -> S -> result S)
    (l : list A) (s : S) : result S :=
  match l with
  | [] => Ok s
  | i :: l' => s' ← body i s; for_each body l' s'
  end.

(** [for i in range(n): body] *)
Definition for_range {S : Type} (n : nat) (body : nat -> S -> result S)
    (s : S) : result S :=
  for_each body (seq 0 n) s.

(** [float(z)] for a Python int that fits 63 bits, as all ints of the
    scripts do (pixel values and the literal 255). *)
Definition float_of_int (z : Z) : float :=
  if z <? 0 then PrimFloat.opp (PrimFloat.of_uint63 (Uint63.of_Z (- z)))
  else PrimFloat.of_uint63 (Uint63.of_Z z).

(** [int(f)]: truncation toward zero; [ValueError] on a NaN and
    [OverflowError] on an infinity. *)
Definition int_of_float (f : float) : result Z :=
  match Prim2SF f with
  | S754_zero _ => Ok 0
  | S754_finite s m e =>
      let mag := match e with
                 | Z0 => Zpos m
                 | Zpos p => Zpos m * 2 ^ Zpos p
                 | Zneg p => Zpos m / 2 ^ Zpos p
                 end in
      Ok (if s then - mag else mag)
  | S754_infinity _ => Raise OverflowError
  | S754_nan => Raise ValueError
  end.

End Py.
Export Py.

(** ** Pillow images, as far as the scripts touch them *)

Module PIL.

(** A raster of [width * height] pixels, stored row by row. *)
Record image (P : Type) : Type := Image {
  width : nat;
  height : nat;
  pixels : list P
}.
Arguments Image {P} width height pixels.
Arguments width {P} i.
Arguments height {P} i.
Arguments pixels {P} i.

Definition size {P} (im : image P) : nat * nat := (width im, height im).

(** The raster holds exactly one value per coordinate. *)
Definition well_formed {P} (im : image P) : Prop :=
  length (pixels im) = (height im * width im)%nat.

(** [Image.new(mode, size, color)] *)
Definition new {P} (size : nat * nat) (color : P) : image P :=
  Image size.1 size.2 (replicate (size.2 * size.1) color).

Definition in_bounds {P} (im : image P) (xy : nat * nat) : bool :=
  (xy.1 <? width im)%nat && (xy.2 <? height im)%nat.

Definition offset {P} (im : image P) (xy : nat * nat) : nat :=
  (xy.2 * width im + xy.1)%nat.

(** [im.getpixel((x, y))]; a coordinate outside the image raises
    [IndexError]. *)
Definition getpixel {P} (im : image P) (xy : nat * nat) : result P :=
  if in_bounds im xy then
    match pixels im !! offset im xy with
    | Some p => Ok p
    | None => Raise IndexError
    end
  else Raise IndexError.

(** [im.putpixel((x, y), value)], in place: the returned image is the
    mutated one. *)
Definition putpixel {P} (im : image P) (xy : nat * nat) (value : P)
    : result (image P) :=
  if in_bounds im xy then
    Ok (Image (width im) (height im) (<[offset im xy := value]> (pixels im)))
  else Raise IndexError.

(** An RGBA value as passed to [putpixel].  An 8-bit band stores a
    value in 0..255 unchanged; the properties below keep the background
    alpha, the only band that is not a literal, in that range. *)
Definition rgba : Type := Z * Z * Z * Z.

(** Mode "L": one 8-bit intensity per pixel. *)
Definition intensity_8bit (im : image Z) : Prop :=
  Forall (fun v => 0 <= v <= 255) (pixels im).

(** An RGBA value that fits four 8-bit bands. *)
Definition rgba_8bit (p : rgba) : Prop :=
  let '(r, g, b, a) := p in
  0 <= r <= 255 /\ 0 <= g <= 255 /\ 0 <= b <= 255 /\ 0 <= a <= 255.

(** The luma of [convert("L")], L = R * 299/1000 + G * 587/1000 +
    B * 114/1000 as Pillow documents it and computes it: in 16-bit
    fixed point, rounded; alpha is dropped. *)
Definition luma (p : rgba) : Z :=
  let '(r, g, b, _) := p in
  (r * 19595 + g * 38470 + b * 7471 + 32768) / 65536.

(** [im.convert("L")] on an RGBA image. *)
Definition convert_L (im : image rgba) : image Z :=
  Image (width im) (height im) (luma <$> pixels im).

(** The state of a recolor loop after [k] pixels in row-major order:
    the first [k] values of the raster are painted with [colour], the
    others are as they were in [fill]. *)
Definition painted_upto (gray : image Z) (colour : Z -> rgba)
    (fill : list rgba) (k : nat) (processed : image rgba) : Prop :=
  width processed = width gray /\ height processed = height gray /\
  pixels processed = (colour <$> take k (pixels gray)) ++ drop k fill.

End PIL.

(** ** Pillow between [convert("L")] and the pixel loops *)

Module ImageOps.
Import PIL.

(** [ImageOps.invert] on a mode "L" image: an intensity [v] becomes
    [255 - v]. *)
Definition invert (im : image Z) : image Z :=
  Image (width im) (height im) ((fun v => 255 - v) <$> pixels im).

(** The two filters whose algorithms are Pillow's own:
    [ImageEnhance.Contrast(im).enhance(factor)] and
    [im.filter(ImageFilter.GaussianBlur(radius=0.5))]. *)
Record filters : Type := Filters {
  enhance : float -> image Z -> image Z;
  gaussian_blur : image Z -> image Z
}.

End ImageOps.

(** ** Calls to the outside world, with their trace *)

Module IO.

(** A computation that calls external tools: the calls it made, in
    order, and how it ended. *)
Record io (E A : Type) : Type := Io {
  trace : list E;
  outcome : result A
}.
Arguments Io {E A} trace outcome.
Arguments trace {E A} i.
Arguments outcome {E A} i.

#[global] Instance io_ret {E} : MRet (io E) := fun A a => Io [] (Ok a).
#[global] Instance io_bind {E} : MBind (io E) := fun A B f m =>
  match outcome m with
  | Ok a => Io (trace m ++ trace (f a)) (outcome (f a))
  | Raise e => Io (trace m) (Raise e)
  end.

(** One call of an external tool: the event is logged, the tool's
    answer is the result. *)
Definition call {E A} (event : E) (answer : result A) : io E A :=
  Io [event] answer.

Definition raise {E A} (e : exn) : io E A := Io [] (Raise e).

(** [try: body / except <caught>: handler]: the handler runs when the
    body raises an exception of a caught class; any other exception goes
    on to the caller. *)
Definition try_except {E A} (body : io E A) (caught : exn -> bool)
    (handler : io E A) : io E A :=
  match outcome body with
  | Ok a => body
  | Raise e =>
      if caught e then Io (trace body ++ trace handler) (outcome handler)
      else body
  end.

(** [for x in l: body], with the accumulator the body updates. *)
Fixpoint for_each_io {E A S} (body : A -> S -> io E S) (l : list A) (s : S)
    : io E S :=
  match l with
  | [] => mret s
  | x :: l' => s' ← body x s; for_each_io body l' s'
  end.

(** [except subprocess.CalledProcessError] *)
Definition CalledProcessError_only (e : exn) : bool :=
  bool_decide (e = CalledProcessError).

(** [except ValueError] *)
Definition ValueError_only (e : exn) : bool := bool_decide (e = ValueError).

(** [except ImportError] *)
Definition ImportError_only (e : exn) : bool := bool_decide (e = ImportError).

(** [except Exception]: every class of [exn] derives from it. *)
Definition any_Exception (e : exn) : bool := true.

(** [subprocess.run(command, check=True, ...)]: a non-zero exit status
    raises [CalledProcessError]. *)
Definition check_returncode (returncode : Z) : result () :=
  if returncode =? 0 then Ok () else Raise CalledProcessError.

End IO.
Export IO.

(** ** Python ranges and indexing *)

Module PyList.

(** [range(a, b)] *)
Definition range (a b : Z) : list Z :=
  (fun k : nat => a + Z.of_nat k) <$> seq 0 (Z.to_nat (b - a)).

(** [l[i]]: a negative index counts from the end; out of range raises
    [IndexError]. *)
Definition index {A} (l : list A) (i : Z) : result A :=
  let n := Z.of_nat (length l) in
  let j := if i <? 0 then n + i else i in
  if (0 <=? j) && (j <? n) then
    match l !! Z.to_nat j with
    | Some a => Ok a
    | None => Raise IndexError
    end
  else Raise IndexError.

(** [enumerate(l)] *)
Definition enumerate {A} (l : list A) : list (Z * A) :=
  imap (fun i a => (Z.of_nat i, a)) l.

End PyList.

(** [bg_alpha = int(255 * bg_opacity)], the line every recolor starts
    with. *)
Definition background_alpha (bg_opacity : float) : result Z :=
  int_of_float (PrimFloat.mul (float_of_int 255) bg_opacity).


(** ** poemtok_final.py *)

Module Final.
Import PIL.

(** [process_image], from the point where Pillow has produced
    [high_contrast] (mode "L") to the finished [processed] image.
    Opening, inverting, contrast enhancement and saving are Pillow's. *)
Definition process_image (high_contrast : image Z) (bg_opacity : float)
    : result (image rgba) :=
  let processed := PIL.new (size high_contrast) (0, 0, 0, 0) in
  bg_alpha ← int_of_float (PrimFloat.mul (float_of_int 255) bg_opacity);
  for_range (height high_contrast) (fun y processed =>
    for_range (width high_contrast) (fun x processed =>
      pixel ← getpixel high_contrast (x, y);
      if pixel >? 200 then
        putpixel processed (x, y) (255, 255, 255, 255)
      else
        putpixel processed (x, y) (0, 0, 0, bg_alpha))
      processed)
    processed.

End Final.

(** ** poemtok_styled_text.py *)

Module StyledText.
Import PIL.

(** [process_image_to_white_text], from [high_contrast] to [processed]. *)
Definition process_image_to_white_text (high_contrast : image Z)
    (bg_opacity : float) (threshold : Z) : result (image rgba) :=
  let processed := PIL.new (size high_contrast) (0, 0, 0, 0) in
  bg_alpha ← int_of_float (PrimFloat.mul (float_of_int 255) bg_opacity);
  for_range (height high_contrast) (fun y processed =>
    for_range (width high_contrast) (fun x processed =>
      pixel ← getpixel high_contrast (x, y);
      if pixel >? threshold then
        putpixel processed (x, y) (255, 255, 255, 255)
      else
        putpixel processed (x, y) (0, 0, 0, bg_alpha))
      processed)
    processed.

End StyledText.

(** ** poemtok_screenshot.py *)

Module Screenshot.
Import PIL.

(** [PoemTokScreenshot.process_image], from [gray_image] to [processed]:
    the variant with a band of mid-tones. *)
Definition process_image (gray_image : image Z) (bg_opacity : float)
    : result (image rgba) :=
  let processed := PIL.new (size gray_image) (0, 0, 0, 0) in
  bg_alpha ← int_of_float (PrimFloat.mul (float_of_int 255) bg_opacity);
  for_range (height gray_image) (fun y processed =>
    for_range (width gray_image) (fun x processed =>
      pixel ← getpixel gray_image (x, y);
      if pixel >? 200 then
        putpixel processed (x, y) (255, 255, 255, 255)
      else if pixel >? 100 then
        alpha ← int_of_float
                  (PrimFloat.mul (float_of_int 255)
                     (PrimFloat.div (float_of_int pixel) 255%float));
        putpixel processed (x, y) (255, 255, 255, alpha)
      else
        putpixel processed (x, y) (0, 0, 0, bg_alpha))
      processed)
    processed.

End Screenshot.

(** ** The page range every PDF variant adjusts the same way *)

Module PageRange.

(** [start_page = max(1, start_page)] then
    [if end_page is None or end_page > total_pages: end_page = total_pages]
    (poemtok.py 293-295, poemtok_image.py 78-80, and the same lines in
    poemtok_advanced.py, poemtok_direct.py, poemtok_ffmpeg.py and
    pdf_to_screenshots.py). *)
Definition adjust (total_pages : Z) (start_page : Z) (end_page : option Z)
    : Z * Z :=
  let start_page := Z.max 1 start_page in
  let end_page :=
    match end_page with
    | None => total_pages
    | Some e => if e >? total_pages then total_pages else e
    end in
  (start_page, end_page).

End PageRange.

(** ** poemtok_image.py *)

Module PoemTokImage.
Import PIL PyList.

(** The PDF's length, what [Image.open] reads from the image of a
    page, Pillow's filters, the converter's [self.invert] and
    [self.bg_opacity], and, for the overlay of each page, ffmpeg's exit
    status. *)
Record world : Type := World {
  total_pages : nat;
  page_image : Z -> image rgba;
  pillow : ImageOps.filters;
  invert : bool;
  bg_opacity : float;
  returncode : Z -> Z
}.

(** [convert_pdf_to_images]: one image path per page of the adjusted
    range, named by its page number ([i + start_page] after the
    adjustment).  pdf2image renders the pages first_page..last_page. *)
Definition convert_pdf_to_images (w : world) (start_page : Z)
    (end_page : option Z) : list Z :=
  let '(start_page, end_page) :=
    PageRange.adjust (Z.of_nat (total_pages w)) start_page end_page in
  let images := range start_page (end_page + 1) in
  (fun '(i, _) => i + start_page) <$> enumerate images.

(** [process_image], from [smoothed] (mode "L", after Pillow's
    inversion, contrast enhancement and blur) to [processed];
    [bg_opacity] is [self.bg_opacity]. *)
Definition process_image (smoothed : image Z) (bg_opacity : float)
    : result (image rgba) :=
  let processed := PIL.new (size smoothed) (0, 0, 0, 0) in
  bg_alpha ← int_of_float (PrimFloat.mul (float_of_int 255) bg_opacity);
  for_range (height smoothed) (fun y processed =>
    for_range (width smoothed) (fun x processed =>
      pixel ← getpixel smoothed (x, y);
      if pixel >? 200 then
        putpixel processed (x, y) (255, 255, 255, 255)
      else
        putpixel processed (x, y) (0, 0, 0, bg_alpha))
      processed)
    processed.

(** [process_image] before the loop, from the opened image to
    [smoothed]. *)
Definition smoothed (f : ImageOps.filters) (invert : bool)
    (opened : image rgba) : image Z :=
  let gray_image := convert_L opened in
  let gray_image :=
    if invert then ImageOps.invert gray_image else gray_image in
  let high_contrast := ImageOps.enhance f 2%float gray_image in
  ImageOps.gaussian_blur f high_contrast.

(** [process_image], all of it, on the opened image. *)
Definition process_image_file (f : ImageOps.filters) (invert : bool)
    (bg_opacity : float) (opened : image rgba) : result (image rgba) :=
  process_image (smoothed f invert opened) bg_opacity.

(** One round of the first loop of [process]: the processed image of a
    page is a file of its own, named after the page's image. *)
Definition add_processed (w : world) (image_path : Z)
    (processed_images : list Z) : result (list Z) :=
  processed ← process_image_file (pillow w) (invert w) (bg_opacity w)
                (page_image w image_path);
  Ok (processed_images ++ [image_path]).

(** [create_video_with_image]: a non-zero exit is caught and gives
    [None]. *)
Definition create_video_with_image (w : world) (image_path output_path : Z)
    : io Z (option Z) :=
  try_except
    (_ ← call image_path (check_returncode (returncode w image_path));
     mret (Some output_path))
    CalledProcessError_only
    (mret None).

(** One round of the second loop of [process]: the output is named by
    [i + start_page] with the [start_page] of the call. *)
Definition add_video (w : world) (start_page : Z) (entry : Z * Z)
    (output_videos : list Z) : io Z (list Z) :=
  let '(i, image_path) := entry in
  let output_path := i + start_page in
  result ← create_video_with_image w image_path output_path;
  match result with
  | Some video => mret (output_videos ++ [video])
  | None => mret output_videos
  end.

(** [process]: every image is processed before the first video is
    made. *)
Definition process (w : world) (start_page : Z) (end_page : option Z)
    : io Z (list Z) :=
  let image_paths := convert_pdf_to_images w start_page end_page in
  processed_images ← Io [] (for_each (add_processed w) image_paths []);
  for_each_io (add_video w start_page) (enumerate processed_images) [].

(** The video of the [i]-th image, if ffmpeg exited with 0 on it. *)
Definition video_of (w : world) (start_page : Z) (entry : Z * Z) : option Z :=
  if returncode w entry.2 =? 0 then Some (entry.1 + start_page) else None.

End PoemTokImage.

(** ** poemtok_fixed.py *)

Module Fixed.

(** The five command lines the three methods run. *)
Inductive command : Type :=
| ffmpeg_overlay        (* create_video_with_overlay: [command] *)
| ffprobe_duration      (* create_video_with_overlay: [verify_command] *)
| ffmpeg_image_video    (* create_video_alternative: [image_command] *)
| ffmpeg_overlay_video  (* create_video_alternative: [overlay_command] *)
| ffmpeg_direct.        (* create_video_direct: [command] *)

#[global] Instance command_eq_dec : EqDecision command.
Proof. solve_decision. Defined.

(** What the outside answers: [os.makedirs] on the directory part of
    the output path (it raises when there is none), an exit status per
    command, what [float(duration_str)] makes of ffprobe's output, which
    is taken to decode as UTF-8 ([None] when the text is no number and
    [float] raises [ValueError]), and the removal of the temporary
    video if it exists. *)
Record world : Type := World {
  makedirs : result ();
  returncode : command -> Z;
  duration : option float;
  remove_temp : result ()
}.

Definition run (w : world) (c : command) : io command () :=
  call c (check_returncode (returncode w c)).

(** [float(duration_str)] *)
Definition float_of_str (w : world) : io command float :=
  match duration w with
  | Some d => mret d
  | None => raise ValueError
  end.

Section Methods.
Context {path : Type}.
Variables (w : world) (output_path : path).

Definition create_video_direct : io command (option path) :=
  try_except
    (_ ← run w ffmpeg_direct;
     mret (Some output_path))
    CalledProcessError_only
    (mret None).

Definition create_video_alternative : io command (option path) :=
  try_except
    (_ ← run w ffmpeg_image_video;
     _ ← run w ffmpeg_overlay_video;
     _ ← Io [] (remove_temp w);
     mret (Some output_path))
    CalledProcessError_only
    create_video_direct.

Definition create_video_with_overlay : io command (option path) :=
  _ ← Io [] (makedirs w);
  try_except
    (_ ← run w ffmpeg_overlay;
     _ ← run w ffprobe_duration;
     try_except
       (actual_duration ← float_of_str w;
        if PrimFloat.ltb actual_duration 0x1.999999999999ap-4%float then
          create_video_alternative
        else
          mret (Some output_path))
       ValueError_only
       create_video_alternative)
    CalledProcessError_only
    create_video_alternative.

End Methods.

(** The three levels, as the world decides them. *)
Definition primary_succeeds (w : world) : bool :=
  (returncode w ffmpeg_overlay =? 0) && (returncode w ffprobe_duration =? 0) &&
  match duration w with
  | Some d => negb (PrimFloat.ltb d 0x1.999999999999ap-4%float)
  | None => false
  end.

Definition alternative_succeeds (w : world) : bool :=
  (returncode w ffmpeg_image_video =? 0) &&
  (returncode w ffmpeg_overlay_video =? 0).

Definition direct_succeeds (w : world) : bool :=
  returncode w ffmpeg_direct =? 0.

(** The commands the first two levels run before they succeed or give
    up: the second command of a level runs only after the first exited
    with 0. *)
Definition primary_trace (w : world) : list command :=
  if returncode w ffmpeg_overlay =? 0 then [ffmpeg_overlay; ffprobe_duration]
  else [ffmpeg_overlay].

Definition alternative_trace (w : world) : list command :=
  if returncode w ffmpeg_image_video =? 0
  then [ffmpeg_image_video; ffmpeg_overlay_video]
  else [ffmpeg_image_video].

End Fixed.

(** ** poemtok.py *)

Module PoemTok.
Import PIL PyList.

(** A Python [str], as its code points. *)
Definition text : Type := list Z.

Inductive event : Type :=
| import_pytesseract_call
| image_to_string_call
| create_minimalist_overlay_call
| write_videofile_call (page_index : Z).

#[global] Instance event_eq_dec : EqDecision event.
Proof. solve_decision. Defined.

(** The collaborators of the script: the import of pytesseract, its OCR,
    the text styler, Python's table of whitespace, the Pillow calls of
    the image-based overlay, moviepy's compositing and encoding of
    one page, and what [ImageDraw.text] writes into a raster. *)
Record world : Type := World {
  import_pytesseract : result ();
  image_to_string : image rgba -> result text;
  create_minimalist_overlay : text -> result (image rgba);
  isspace : Z -> bool;
  paste_page : nat * nat -> image rgba -> image rgba;
  write_videofile : Z -> result ();
  draw_text : text -> list rgba -> list rgba
}.

(** [extract_pdf_pages], from the texts PyPDF2 extracted: one white
    1000 x 1400 image per page, with the text drawn into it. *)
Definition extract_pdf_pages (w : world) (texts : list text)
    : list (image rgba) :=
  (fun text =>
     let img := PIL.new (1000%nat, 1400%nat) (255, 255, 255, 255) in
     Image (width img) (height img) (draw_text w text (pixels img)))
  <$> texts.

(** The module-level [try: import pytesseract ... except ImportError:],
    which sets the flag. *)
Definition HAS_PYTESSERACT (w : world) : io event bool :=
  try_except
    (_ ← call import_pytesseract_call (import_pytesseract w);
     mret true)
    ImportError_only
    (mret false).

Fixpoint lstrip (w : world) (s : text) : text :=
  match s with
  | [] => []
  | c :: s' => if isspace w c then lstrip w s' else s
  end.

(** [s.strip()] *)
Definition strip (w : world) (s : text) : text :=
  reverse (lstrip w (reverse (lstrip w s))).

(** moviepy on the background video: [VideoFileClip(video_path)] with
    the ratio [video.w / video.h]; the crop and the resize of
    [prepare_background_video] (the crop divides by
    [self.resolution[0]] only for a video of width 0); and
    [background_video.copy()] for the page with index [i]. *)
Record background : Type := Background {
  video_file_clip : result ();
  crop_and_resize : result ();
  copy : Z -> result ()
}.

(** The page indices for which [write_videofile] was reached, in
    order. *)
Definition written (t : list event) : list Z :=
  omap (fun e => match e with
                 | write_videofile_call i => Some i
                 | _ => None
                 end) t.

Section Converter.
Variables (w : world) (resolution : nat * nat) (has_pytesseract : bool).

(** Method 2 of [create_text_overlay]: the page image itself, resized
    and pasted on a dark box.  [scale] divides by the page's width and
    height; the rest is Pillow's. *)
Definition image_based_overlay (page_image : image rgba)
    : io event (image rgba) :=
  let '(page_w, page_h) := size page_image in
  if (page_w =? 0)%nat || (page_h =? 0)%nat then raise ZeroDivisionError
  else mret (paste_page w resolution page_image).

(** [create_text_overlay]; the inner [Some overlay] is the
    [return overlay] of method 1. *)
Definition create_text_overlay (page_image : image rgba)
    : io event (image rgba) :=
  returned ←
    (if has_pytesseract then
       try_except
         (text ← call image_to_string_call (image_to_string w page_image);
          if negb (bool_decide (text = [])) &&
             (0 <? length (strip w text))%nat then
            overlay ← call create_minimalist_overlay_call
                        (create_minimalist_overlay w text);
            mret (Some overlay)
          else mret None)
         any_Exception
         (mret None)
     else mret None);
  match returned with
  | Some overlay => mret overlay
  | None => image_based_overlay page_image
  end.

(** [create_video] for the page with 0-based index [i]: nothing in it is
    caught; it returns the output path, named by [i + 1]. *)
Definition create_video (i : Z) (page_image : image rgba) : io event Z :=
  overlay ← create_text_overlay page_image;
  _ ← call (write_videofile_call i) (write_videofile w i);
  mret (i + 1).

(** [prepare_background_video]: the test of the aspect ratio divides
    by [self.resolution[1]]. *)
Definition prepare_background_video (b : background) : io event () :=
  _ ← Io [] (video_file_clip b);
  if (resolution.2 =? 0)%nat then raise ZeroDivisionError
  else Io [] (crop_and_resize b).

(** One round of the loop of [process], for the page with index [i]. *)
Definition add_page (b : background) (pages : list (image rgba)) (i : Z)
    (output_videos : list Z) : io event (list Z) :=
  page ← Io [] (index pages i);
  _ ← Io [] (copy b i);
  output_path ← create_video i page;
  mret (output_videos ++ [output_path]).

(** [process], from the extracted [pages] on. *)
Definition process (b : background) (pages : list (image rgba))
    (start_page : Z) (end_page : option Z) : io event (list Z) :=
  let '(start_page, end_page) :=
    PageRange.adjust (Z.of_nat (length pages)) start_page end_page in
  _ ← prepare_background_video b;
  for_each_io (add_page b pages) (range (start_page - 1) end_page) [].

End Converter.

End PoemTok.

(** ** The recolor contract, in the words of the specification *)

Module Spec.
Import PIL.

(** Section 4.1: RGBA = (255,255,255,255) if I > T, (0,0,0,A) otherwise. *)
Definition recolor_pixel (T A I : Z) : rgba :=
  if bool_decide (I > T) then (255, 255, 255, 255) else (0, 0, 0, A).

(** The variant with a third band: for 100 < I <= T, white with the
    intensity as alpha. *)
Definition recolor_pixel_3 (T A I : Z) : rgba :=
  if bool_decide (I > T) then (255, 255, 255, 255)
  else if bool_decide (100 < I) then (255, 255, 255, I)
  else (0, 0, 0, A).

(** A grid is recolored pixel by pixel, keeping its dimensions. *)
Definition recolor (f : Z -> rgba) (gray : image Z) : image rgba :=
  Image (width gray) (height gray) (f <$> pixels gray).

End Spec.

(** ** Sample inputs *)

Module Sample.

(** A 3 x 2 grid with intensities on both sides of each threshold. *)
Definition grid : PIL.image Z := PIL.Image 3 2 [0; 200; 201; 255; 100; 150].

(** A second grid of the same size, equal to [grid] at (1, 0) only. *)
Definition other_grid : PIL.image Z := PIL.Image 3 2 [90; 200; 7; 30; 220; 0].

(** The default [--bg-opacity] of poemtok_final.py, 0.8 as a binary64. *)
Definition opacity : float := 0x1.999999999999ap-1%float.

(** A one-pixel page image. *)
Definition page : PIL.image PIL.rgba := PIL.Image 1 1 [(255, 255, 255, 255)].

(** A world for poemtok.py: pytesseract is not installed, OCR would
    raise, and moviepy fails on the second page (index 1). *)
Definition poemtok_world : PoemTok.world :=
  PoemTok.World (Raise ImportError)
    (fun _ => Raise OtherError)
    (fun _ => Raise OtherError)
    (fun c => bool_decide (c = 32))
    (fun _ page_image => page_image)
    (fun i => if i =? 1 then Raise OtherError else Ok ())
    (fun _ raster => raster).

End Sample.

(** ** Python strings, as far as the scripts use them *)

Module PyStr.

(** A [str], as its code points. *)
Definition str : Type := list Z.

(** [len(s)] *)
Definition len (s : str) : Z := Z.of_nat (length s).

(** [sep.join(parts)] *)
Definition join (sep : str) (parts : list str) : str :=
  match parts with
  | [] => []
  | first :: others => first ++ concat ((fun part => sep ++ part) <$> others)
  end.

(** [s.split()], on Python's whitespace: the maximal runs of characters
    that are not whitespace.  [word] is the run being read. *)
Fixpoint split_from (isspace : Z -> bool) (s : str) (word : str) : list str :=
  match s with
  | [] => if bool_decide (word = []) then [] else [word]
  | c :: s' =>
      if isspace c then
        if bool_decide (word = []) then split_from isspace s' []
        else word :: split_from isspace s' []
      else split_from isspace s' (word ++ [c])
  end.

Definition split (isspace : Z -> bool) (s : str) : list str :=
  split_from isspace s [].

(** [s.split(sep)] for a one-character separator: every occurrence
    cuts, so the result has one piece more than there are separators. *)
Fixpoint split_on_from (sep : Z) (s : str) (piece : str) : list str :=
  match s with
  | [] => [piece]
  | c :: s' =>
      if bool_decide (c = sep) then piece :: split_on_from sep s' []
      else split_on_from sep s' (piece ++ [c])
  end.

Definition split_on (sep : Z) (s : str) : list str := split_on_from sep s [].

(** [s.replace(old, new)] for a one-character [old]. *)
Definition replace (old : Z) (new : str) (s : str) : str :=
  concat ((fun c => if bool_decide (c = old) then new else [c]) <$> s).

Fixpoint lstrip (isspace : Z -> bool) (s : str) : str :=
  match s with
  | [] => []
  | c :: s' => if isspace c then lstrip isspace s' else s
  end.

(** [s.strip()] *)
Definition strip (isspace : Z -> bool) (s : str) : str :=
  reverse (lstrip isspace (reverse (lstrip isspace s))).

End PyStr.

(** ** poemtok_styled.py, the line breaking *)

Module Styled.
Import PyStr.

(** One round of the loop of [_format_text] over [words]; the state is
    [lines] and [current_line]. *)
Definition format_word (max_line_length : Z) (state : list str * str)
    (word : str) : list str * str :=
  let '(lines, current_line) := state in
  if (len current_line + len word + 1 >? max_line_length)
     && negb (bool_decide (current_line = [])) then
    (lines ++ [current_line], word)
  else if negb (bool_decide (current_line = [])) then
    (lines, current_line ++ [32] ++ word)
  else
    (lines, word).

(** The lines of [_format_text] before they are joined: the loop, then
    "add the last line". *)
Definition format_lines (max_line_length : Z) (words : list str) : list str :=
  let '(lines, current_line) :=
    foldl (format_word max_line_length) ([], []) words in
  if negb (bool_decide (current_line = [])) then lines ++ [current_line]
  else lines.

(** [_format_text(text, max_line_length)]; the lines are joined with a
    backslash and an [n], the line break of ffmpeg's drawtext. *)
Definition _format_text (isspace : Z -> bool) (text : str)
    (max_line_length : Z) : str :=
  join [92; 110] (format_lines max_line_length (split isspace text)).

(** What the loop of [_format_text] has built after [words]: nothing
    yet, or a current line that is not empty, with the lines carrying
    the words read so far and each line within the limit unless it is a
    single word. *)
Definition format_inv (max_line_length : Z) (words : list str)
    (state : list str * str) : Prop :=
  (words = [] /\ state = ([], [])) \/
  (state.2 <> [] /\
   join [32] (state.1 ++ [state.2]) = join [32] words /\
   Forall (fun line => line <> [] /\
             (len line <= max_line_length \/ line ∈ words))
     (state.1 ++ [state.2])).

End Styled.

(** ** poemtok_ffmpeg.py, the caption lines *)

Module Captions.
Import PyStr.

(** One round of the loop of [create_subtitle_file] over [words]. *)
Definition add_word (state : list str * str) (word : str)
    : list str * str :=
  let '(formatted_lines, current_line) := state in
  if len current_line + len word + 1 <=? 40 then
    if negb (bool_decide (current_line = [])) then
      (formatted_lines, current_line ++ [32] ++ word)
    else
      (formatted_lines, word)
  else
    (formatted_lines ++ [current_line], word).

(** [formatted_lines] of [create_subtitle_file]. *)
Definition formatted_lines (words : list str) : list str :=
  let '(formatted_lines, current_line) := foldl add_word ([], []) words in
  if negb (bool_decide (current_line = [])) then
    formatted_lines ++ [current_line]
  else formatted_lines.

(** The first word does not pass the test [0 + len(word) + 1 <= 40]
    that an empty [current_line] puts to it. *)
Definition first_word_long (words : list str) : bool :=
  match words with
  | word :: _ => negb (len word + 1 <=? 40)
  | [] => false
  end.

(** [formatted_text]: the lines joined with a backslash and an [N]. *)
Definition formatted_text (isspace : Z -> bool) (text : str) : str :=
  join [92; 78] (formatted_lines (split isspace text)).

(** What the loop of [create_subtitle_file] has built after [words]: an
    empty first line if the first word was long, then lines that are
    not empty. *)
Definition caption_inv (words : list str) (state : list str * str) : Prop :=
  (words = [] /\ state = ([], [])) \/
  (state.2 <> [] /\
   exists body,
     state.1 = (if first_word_long words then [[]] else []) ++ body /\
     join [32] (body ++ [state.2]) = join [32] words /\
     Forall (fun line => line <> [] /\ (len line <= 40 \/ line ∈ words))
       (body ++ [state.2])).

End Captions.

(** ** poemtok_final.py, from the command line to ffmpeg *)

Module FinalCLI.
Import PIL.

(** The two command lines of [create_video]; the ffmpeg one takes the
    processed image, the duration and the scale. *)
Inductive command : Type :=
| ffmpeg (processed_image : image rgba) (duration : Z) (scale : float)
| ffprobe.

(** [os.makedirs] on the directory part of the output path (it raises
    when there is none), what Pillow makes of the image file for a
    contrast factor ([convert("L")], [ImageOps.invert],
    [ImageEnhance.Contrast]), the exit status of each command, and what
    [float(duration_str)] makes of ffprobe's output. *)
Record world : Type := World {
  makedirs : result ();
  high_contrast : float -> image Z;
  returncode : command -> Z;
  duration : option float
}.

(** The parsed command line of [main]. *)
Record args : Type := Args {
  output : Z;
  args_duration : Z;
  scale : float;
  bg_opacity : float;
  contrast : float
}.

(** [process_image(image_path, output_path=None, bg_opacity=0.8,
    contrast=2.0)]: the result stands for the PNG file it saves. *)
Definition process_image (w : world) (bg_opacity contrast : float)
    : result (image rgba) :=
  Final.process_image (high_contrast w contrast) bg_opacity.

(** [process_image] as a function of the opened image: Pillow's steps
    before the loop are [convert("L")], [ImageOps.invert] and the
    contrast filter. *)
Definition high_contrast_of (f : ImageOps.filters) (contrast : float)
    (opened : image rgba) : image Z :=
  ImageOps.enhance f contrast (ImageOps.invert (convert_L opened)).

Definition process_image_file (f : ImageOps.filters) (opened : image rgba)
    (bg_opacity contrast : float) : result (image rgba) :=
  Final.process_image (high_contrast_of f contrast opened) bg_opacity.

(** [create_video]: it calls [process_image(image_path)], with the
    defaults 0.8 and 2.0; the [ValueError] of [float] is only
    printed. *)
Definition create_video (w : world) (output_path : Z) (duration : Z)
    (scale : float) : io command (option Z) :=
  _ ← Io [] (makedirs w);
  processed_image ← Io [] (process_image w 0x1.999999999999ap-1%float 2%float);
  try_except
    (_ ← call (ffmpeg processed_image duration scale)
           (check_returncode
              (returncode w (ffmpeg processed_image duration scale)));
     _ ← call ffprobe (check_returncode (returncode w ffprobe));
     _ ← try_except
           (match FinalCLI.duration w with
            | Some actual_duration => mret ()
            | None => raise ValueError
            end)
           ValueError_only
           (mret ());
     mret (Some output_path))
    CalledProcessError_only
    (mret None).

(** [main]: [create_video(args.image_path, args.video_path,
    args.output, duration=args.duration, scale=args.scale)], whose
    result it drops. *)
Definition main (w : world) (a : args) : io command () :=
  _ ← create_video w (output a) (args_duration a) (scale a);
  mret ().

End FinalCLI.

(** ** poemtok_styled_text.py, the video and its fallback *)

Module StyledTextCLI.
Import PIL.

Inductive command : Type :=
| ffmpeg_styled   (* create_video_with_styled_text: [command] *)
| ffprobe         (* create_video_with_styled_text: [verify_command] *)
| ffmpeg_direct.  (* create_video_direct: [command] *)

#[global] Instance command_eq_dec : EqDecision command.
Proof. solve_decision. Defined.

(** [os.makedirs] on the directory part of the output path, what
    Pillow makes of the image file for a contrast factor
    ([convert("L")], [ImageEnhance.Contrast]), the exit status of each
    command, and what [float(duration_str)] makes of ffprobe's
    output. *)
Record world : Type := World {
  makedirs : result ();
  high_contrast : float -> image Z;
  returncode : command -> Z;
  duration : option float
}.

Definition run (w : world) (c : command) : io command () :=
  call c (check_returncode (returncode w c)).

Definition create_video_direct (w : world) (output_path : Z)
    : io command (option Z) :=
  try_except
    (_ ← run w ffmpeg_direct;
     mret (Some output_path))
    CalledProcessError_only
    (mret None).

(** [create_video_with_styled_text]: the output directory and the
    recolor come first, outside the [try]. *)
Definition create_video_with_styled_text (w : world) (output_path : Z)
    (bg_opacity contrast : float) (threshold : Z) : io command (option Z) :=
  _ ← Io [] (makedirs w);
  processed_image ←
    Io [] (StyledText.process_image_to_white_text
             (high_contrast w contrast) bg_opacity threshold);
  try_except
    (_ ← run w ffmpeg_styled;
     _ ← run w ffprobe;
     try_except
       (match duration w with
        | Some actual_duration => mret (Some output_path)
        | None => raise ValueError
        end)
       ValueError_only
       (create_video_direct w output_path))
    CalledProcessError_only
    (create_video_direct w output_path).

(** The first method counts as done when both commands exit with 0 and
    the duration is a number, whatever number. *)
Definition primary_succeeds (w : world) : bool :=
  (returncode w ffmpeg_styled =? 0) && (returncode w ffprobe =? 0) &&
  bool_decide (is_Some (duration w)).

End StyledTextCLI.
(** ** text_styler.py *)

Module TextStyler.
Import PIL PyStr.

(** The values a style dictionary holds. *)
Inductive value : Type :=
| Int (z : Z)
| Colour (c : rgba)
| Str (s : string).

#[global] Instance value_eq_dec : EqDecision value.
Proof. solve_decision. Defined.

(** Python's table of whitespace, the font [__init__] found on the
    system, if any, and Pillow's [draw.textsize(line, font=font)] for
    the font that a path and a size select. *)
Record world : Type := World {
  isspace : Z -> bool;
  default_font : option string;
  textsize : option value -> value -> str -> Z * Z
}.

(** What [create_styled_overlay] draws on the transparent image: one
    rectangle, then the lines of text. *)
Record layout : Type := Layout {
  rectangle : Z * Z * Z * Z;
  rectangle_fill : value;
  drawn : list (Z * Z * str);
  text_fill : value
}.

(** [style.get(key, default)] *)
Definition get (style : gmap string value) (key : string) (default : value)
    : value :=
  match style !! key with
  | Some v => v
  | None => default
  end.

(** An operand of integer arithmetic: anything but an int ends in a
    [TypeError]. *)
Definition as_int (v : value) : result Z :=
  match v with
  | Int z => Ok z
  | _ => Raise OtherError
  end.

(** [max(...)] over a sequence; Python raises [ValueError] on an empty
    one. *)
Definition py_max (l : list Z) : result Z :=
  match l with
  | [] => Raise ValueError
  | first :: others => Ok (foldl Z.max first others)
  end.

(** [sum(...)] *)
Definition py_sum (l : list Z) : Z := foldl Z.add 0 l.

(** One round of the loop that draws the lines: the state is
    [current_y] and the calls of [draw.text] so far. *)
Definition draw_line (alignment : value) (bg_x bg_width padding : Z)
    (state : Z * list (Z * Z * str)) (entry : str * (Z * Z))
    : Z * list (Z * Z * str) :=
  let '(current_y, calls) := state in
  let '(line, (line_width, line_height)) := entry in
  let line_x :=
    if bool_decide (alignment = Str "left") then bg_x + padding
    else if bool_decide (alignment = Str "right") then
      bg_x + bg_width - padding - line_width
    else bg_x + (bg_width - line_width) / 2 in
  (current_y + line_height, calls ++ [(line_x, current_y, line)]).

Section Styler.
Variables (w : world) (resolution : Z * Z).

(** [create_styled_overlay(text, style)] *)
Definition create_styled_overlay (text : str) (style : gmap string value)
    : result layout :=
  let font_path :=
    match style !! "font_path"%string with
    | Some v => Some v
    | None => Str <$> default_font w
    end in
  let font_size := get style "font_size" (Int 36) in
  let text_color := get style "text_color" (Colour (255, 255, 255, 255)) in
  let bg_color := get style "bg_color" (Colour (0, 0, 0, 160)) in
  let padding := get style "padding" (Int 40) in
  let position := get style "position" (Str "center") in
  let alignment := get style "alignment" (Str "center") in
  let lines := split_on 10 (strip (isspace w) text) in
  let line_sizes := textsize w font_path font_size <$> lines in
  text_width ← py_max (fst <$> line_sizes);
  let text_height := py_sum (snd <$> line_sizes) in
  padding ← as_int padding;
  let pos_y :=
    if bool_decide (position = Str "top") then padding
    else if bool_decide (position = Str "bottom") then
      resolution.2 - text_height - padding
    else (resolution.2 - text_height) / 2 in
  let bg_width := text_width + padding * 2 in
  let bg_x := (resolution.1 - bg_width) / 2 in
  let '(_, calls) :=
    foldl (draw_line alignment bg_x bg_width padding) (pos_y, [])
      (zip lines line_sizes) in
  Ok (Layout
        (bg_x, pos_y - padding, bg_x + bg_width, pos_y + text_height + padding)
        bg_color calls text_color).

(** The size [create_styled_overlay] measures for a line, in the font
    the style selects. *)
Definition line_size (style : gmap string value) (line : str) : Z * Z :=
  textsize w
    match style !! "font_path"%string with
    | Some v => Some v
    | None => Str <$> default_font w
    end
    (get style "font_size" (Int 36)) line.

(** [minimalist_style] of [create_minimalist_overlay]. *)
Definition minimalist_style : gmap string value :=
  {[ "font_size"%string := Int 48;
     "text_color"%string := Colour (255, 255, 255, 255);
     "bg_color"%string := Colour (0, 0, 0, 200);
     "padding"%string := Int 60;
     "position"%string := Str "center";
     "alignment"%string := Str "center" ]}.

(** The style after [if style: minimalist_style.update(style)]. *)
Definition updated_style (style : gmap string value) : gmap string value :=
  if bool_decide (style = ∅) then minimalist_style
  else style ∪ minimalist_style.

(** [create_minimalist_overlay(text, style)] *)
Definition create_minimalist_overlay (text : str)
    (style : gmap string value) : result layout :=
  create_styled_overlay text (updated_style style).

End Styler.

End TextStyler.

(** ** poemtok.py, the command line *)

Module PoemTokCLI.
Import PyStr TextStyler.

(** The [style] dictionary [main] builds from [--font-size], [--font]
    and [--minimalist]. *)
Definition main_style (font_size : Z) (font : option string)
    (minimalist : bool) : gmap string value :=
  let style : gmap string value :=
    {[ "font_size"%string := Int font_size;
       "position"%string := Str "center";
       "alignment"%string := Str "center" ]} in
  let style :=
    match font with
    | Some path =>
        if bool_decide (path = ""%string) then style
        else <["font_path"%string := Str path]> style
    | None => style
    end in
  if minimalist then
    <["padding"%string := Int 60]>
      (<["text_color"%string := Colour (255, 255, 255, 255)]>
         (<["bg_color"%string := Colour (0, 0, 0, 200)]> style))
  else style.

(** [try: body / except: handler], the bare [except], which catches
    every exception. *)
Definition try_bare {A} (body handler : result A) : result A :=
  match body with
  | Ok a => Ok a
  | Raise _ => handler
  end.

(** The resolution [main] parses from [--resolution]:
    [width, height = map(int, args.resolution.split("x"))] under a
    bare [except] that falls back to 1080 x 1920.  [int] is Python's
    parser of integers; unpacking anything but two values raises
    [ValueError]. *)
Definition parse_resolution (int : str -> result Z) (resolution : str)
    : result (Z * Z) :=
  try_bare
    (match split_on 120 resolution with
     | [first; second] =>
         width ← int first;
         height ← int second;
         Ok (width, height)
     | _ => Raise ValueError
     end)
    (Ok (1080, 1920)).

End PoemTokCLI.
(** ** Sample runs *)

Module Cases.

(** [ImageEnhance.Contrast(im).enhance(2.0)] as Pillow computes it:
    the image is blended, with factor 2, with a flat image of its mean
    intensity [int(mean + 0.5)], and the result is clipped to
    0..255. *)
Definition contrast_2 (im : PIL.image Z) : PIL.image Z :=
  let n := Z.of_nat (length (PIL.pixels im)) in
  let mean := (2 * foldr Z.add 0 (PIL.pixels im) + n) / (2 * n) in
  PIL.Image (PIL.width im) (PIL.height im)
    ((fun v => Z.max 0 (Z.min 255 (2 * v - mean))) <$> PIL.pixels im).

(** One pass of the box blur by which Pillow approximates
    [GaussianBlur(radius=0.5)], along a line of pixels: a pixel becomes
    the rounded mean of itself, with weight 15379114 / 2^24, and of its
    two neighbours, with weight 699051 / 2^24 each; at an end of the
    line the end pixel stands in for the neighbour it lacks. *)
Definition box_blur_pass (line : list Z) : list Z :=
  imap (fun x v =>
          let left := default v (line !! pred x) in
          let right := default v (line !! S x) in
          (v * 15379114 + (left + right) * 699051 + 2 ^ 23) / 2 ^ 24)
       line.

(** [im.filter(ImageFilter.GaussianBlur(radius=0.5))] on an image of
    one row: three passes along the row.  The three passes along the
    columns that follow change nothing, a column being one pixel. *)
Definition gaussian_blur_row (im : PIL.image Z) : PIL.image Z :=
  PIL.Image (PIL.width im) (PIL.height im)
    (box_blur_pass (box_blur_pass (box_blur_pass (PIL.pixels im)))).

(** Pillow's filters for the samples below, which have one row: the
    contrast filter at factor 2.0, the only factor they use, and the
    blur. *)
Definition filters : ImageOps.filters :=
  ImageOps.Filters (fun _ => contrast_2) gaussian_blur_row.





(** poemtok_image.py with its defaults [invert=True] and
    [bg_opacity=0.7]: three white pages of one pixel, and ffmpeg fails
    on page 2. *)
Definition image_world : PoemTokImage.world :=
  PoemTokImage.World 3 (fun _ => Sample.page) filters true
    0x1.6666666666666p-1%float
    (fun page => if page =? 2 then 1 else 0).

(** poemtok_fixed.py: the directory exists, the first ffmpeg call
    fails and the alternative method succeeds. *)
Definition fixed_world : Fixed.world :=
  Fixed.World (Ok ())
    (fun c => match c with Fixed.ffmpeg_overlay => 1 | _ => 0 end)
    None (Ok ()).

(** moviepy loads, crops and copies the background video without
    failing. *)
Definition background : PoemTok.background :=
  PoemTok.Background (Ok ()) (Ok ()) (fun _ => Ok ()).

(** poemtok_final.py: ffmpeg succeeds, ffprobe fails. *)
Definition final_world : FinalCLI.world :=
  FinalCLI.World (Ok ()) (fun _ => Sample.grid)
    (fun c => match c with FinalCLI.ffmpeg _ _ _ => 0 | FinalCLI.ffprobe => 1 end)
    None.

(** [--output 7 --duration 5 --scale 0.7 --bg-opacity 0.5 --contrast 3]. *)
Definition final_args : FinalCLI.args :=
  FinalCLI.Args 7 5 0x1.6666666666666p-1%float 0.5%float 3%float.

(** poemtok_styled_text.py: both commands of the first method exit with
    0 but ffprobe prints no number, and the direct command fails. *)
Definition styled_world : StyledTextCLI.world :=
  StyledTextCLI.World (Ok ()) (fun _ => Sample.grid)
    (fun c => match c with StyledTextCLI.ffmpeg_direct => 1 | _ => 0 end)
    None.

(** poemtok.py with pytesseract: the OCR reads "Hi" on every page and
    the styler and moviepy never fail. *)
Definition ocr_world : PoemTok.world :=
  PoemTok.World (Ok ())
    (fun _ => Ok [72; 105])
    (fun _ => Ok Sample.page)
    (fun c => bool_decide (c = 32))
    (fun _ page_image => page_image)
    (fun _ => Ok ())
    (fun _ raster => raster).

(** A font in which every character is 10 wide and 20 high. *)
Definition styler_world : TextStyler.world :=
  TextStyler.World (fun c => (c =? 32) || (c =? 10)) None
    (fun _ _ line => (10 * PyStr.len line, 20)).

(** "Hi\nthere" *)
Definition two_lines : PyStr.str := [72; 105; 10; 116; 104; 101; 114; 101].

End Cases.

(** ** poemtok_advanced.py, the escaping of a subtitle line *)

Module Advanced.
Import PyStr.

(** [line.replace('\\', '\\\\').replace('{', '\\{').replace('}', '\\}')]
    of [create_advanced_subtitle]. *)
Definition escape (line : str) : str :=
  replace 125 [92; 125] (replace 123 [92; 123] (replace 92 [92; 92] line)).

End Advanced.

(** ** poemtok_screenshot.py, a batch of screenshots *)

Module ScreenshotBatch.
Import PIL PyList.

(** A path of an input image, as [os.path] splits it. *)
Record path : Type := Path {
  dirname : string;
  basename : string
}.

(** The ffmpeg command of [create_video_with_image]: [overlay] is what
    the file at [image_path] holds when the command runs, if the file
    exists; [output_path] is the file name in [output_dir]. *)
Inductive command : Type :=
| ffmpeg (overlay : option (image rgba)) (output_path : string).

(** What Pillow makes of an input file before the pixel loop
    ([convert("L")], [ImageOps.invert], [ImageEnhance.Contrast]), the
    [bg_opacity] of the converter, [os.path.splitext(name)[0]], and the
    exit status of the command that the second loop of [process_images]
    runs in round [i]. *)
Record world : Type := World {
  gray_image : path -> image Z;
  bg_opacity : float;
  splitext : string -> string;
  returncode : Z -> Z
}.

(** The last path of a batch with a given base name. *)
Definition last_named (name : string) (image_paths : list path)
    : option path :=
  last (filter (fun image_path => basename image_path = name) image_paths).

Section Converter.
Variable w : world.

(** [process_image]: the files of [temp_dir] are known by their names;
    saving under a name that exists replaces the file. *)
Definition process_image (image_path : path)
    (temp_dir : gmap string (image rgba))
    : result (string * gmap string (image rgba)) :=
  processed ← Screenshot.process_image (gray_image w image_path)
                (bg_opacity w);
  let processed_path := ("processed_" +:+ basename image_path)%string in
  Ok (processed_path, <[processed_path := processed]> temp_dir).

(** [create_video_with_image], in round [i] *)
Definition create_video_with_image (temp_dir : gmap string (image rgba))
    (i : Z) (image_path output_path : string) : io command (option string) :=
  try_except
    (_ ← call (ffmpeg (temp_dir !! image_path) output_path)
           (check_returncode (returncode w i));
     mret (Some output_path))
    CalledProcessError_only
    (mret None).

(** One round of the first loop of [process_images]; the state is
    [processed_images] and the temporary directory. *)
Definition add_processed (image_path : path)
    (state : list string * gmap string (image rgba))
    : result (list string * gmap string (image rgba)) :=
  let '(processed_images, temp_dir) := state in
  '(processed, temp_dir) ← process_image image_path temp_dir;
  Ok (processed_images ++ [processed], temp_dir).

(** One round of the second loop of [process_images], over
    [enumerate(processed_images)]. *)
Definition add_video (temp_dir : gmap string (image rgba))
    (entry : Z * string) (output_videos : list string)
    : io command (list string) :=
  let '(i, image_path) := entry in
  let base_name := splitext w image_path in
  let output_path := (base_name +:+ "_video.mp4")%string in
  result ← create_video_with_image temp_dir i image_path output_path;
  match result with
  | Some result => mret (output_videos ++ [result])
  | None => mret output_videos
  end.

(** [process_images]: every image is processed before the first video
    is made. *)
Definition process_images (image_paths : list path)
    (temp_dir : gmap string (image rgba)) : io command (list string) :=
  '(processed_images, temp_dir) ←
    Io [] (for_each add_processed image_paths ([], temp_dir));
  for_each_io (add_video temp_dir) (enumerate processed_images) [].

End Converter.

End ScreenshotBatch.
(** ** A batch with two screenshots of one name *)

Module Batch.
Import ScreenshotBatch.

(** [a/p.png] shows [Sample.grid], every other file
    [Sample.other_grid]; names end in a four-character extension;
    ffmpeg never fails. *)
Definition world : ScreenshotBatch.world :=
  World
    (fun image_path =>
       if bool_decide (dirname image_path = "a"%string) then Sample.grid
       else Sample.other_grid)
    Sample.opacity
    (fun name => String.substring 0 (String.length name - 4) name)
    (fun _ => 0).

Definition image_paths : list path := [Path "a" "p.png"; Path "b" "p.png"].

End Batch.

(** ** take_screenshots.py *)

Module TakeScreenshots.
Import PIL PyList.

(** The calls that write or read files; a page image is named by its
    page number. *)
Inductive event : Type :=
| convert_from_path (first_page last_page : Z)
| image_save (page_num : Z)
| savefig (page_num : Z).

#[global] Instance event_eq_dec : EqDecision event.
Proof. solve_decision. Defined.

(** The number of pages PyPDF2 reads, what pdf2image returns for a
    range of pages, what [image.save] does for the image named by a
    page number, and what the matplotlib steps of the fallback do for a
    page, from [plt.figure] to [plt.close]. *)
Record world : Type := World {
  total_pages : nat;
  images : Z -> Z -> result (list (image rgba));
  save : Z -> result ();
  render : Z -> result ()
}.

(** Whether a call returned. *)
Definition returned {A} (r : result A) : bool :=
  match r with
  | Ok _ => true
  | Raise _ => false
  end.

(** One round of the loop of the first method, over
    [enumerate(images)]. *)
Definition save_image (w : world) (start_page : Z)
    (entry : Z * image rgba) (image_paths : list Z) : io event (list Z) :=
  let '(i, image) := entry in
  let page_num := i + start_page in
  _ ← call (image_save page_num) (save w page_num);
  mret (image_paths ++ [page_num]).

(** One round of the loop of the fallback. *)
Definition render_page (w : world) (page_num : Z) (image_paths : list Z)
    : io event (list Z) :=
  try_except
    (_ ← call (savefig page_num) (render w page_num);
     mret (image_paths ++ [page_num]))
    any_Exception
    (mret image_paths).

(** [save_pdf_pages_as_images], from the page count on. *)
Definition save_pdf_pages_as_images (w : world) (start_page : Z)
    (end_page : option Z) : io event (list Z) :=
  let '(start_page, end_page) :=
    PageRange.adjust (Z.of_nat (total_pages w)) start_page end_page in
  try_except
    (images ← call (convert_from_path start_page end_page)
                (images w start_page end_page);
     for_each_io (save_image w start_page) (enumerate images) [])
    any_Exception
    (for_each_io (render_page w) (range start_page (end_page + 1)) []).

End TakeScreenshots.

(* ================================================================== *)
(** * Properties *)

(** ** Loops *)

Section LoopRule.
Context {S : Type}.
Implicit Types (body : nat -> S -> result S) (Inv : nat -> S -> Prop).

Lemma for_each_seq_inv Inv body n : forall a s,
  Inv a s ->
  (forall i s, (a <= i < a + n)%nat -> Inv i s ->
     exists s', body i s = Ok s' /\ Inv (Datatypes.S i) s') ->
  exists s', for_each body (seq a n) s = Ok s' /\ Inv (a + n)%nat s'.
Proof.
  induction n as [|n IH]; intros a s Ha Hstep; simpl.
  - exists s. by rewrite Nat.add_0_r.
  - destruct (Hstep a s) as (s1 & Hs1 & Hinv1); [lia | done |].
    rewrite Hs1. simpl.
    destruct (IH (Datatypes.S a) s1) as (s2 & Hs2 & Hinv2); [done | |].
    + intros i t Hi. apply Hstep. lia.
    + exists s2. split; [done |].
      by replace (a + Datatypes.S n)%nat with (Datatypes.S a + n)%nat by lia.
Qed.

(** The loop rule for [for i in range(n)]: an invariant that holds on
    entry and is carried by every round, each of which returns, holds
    at exit, and the loop returns. *)
Lemma for_range_inv Inv body n s :
  Inv 0%nat s ->
  (forall i s, (i < n)%nat -> Inv i s ->
     exists s', body i s = Ok s' /\ Inv (Datatypes.S i) s') ->
  exists s', for_range n body s = Ok s' /\ Inv n s'.
Proof.
  intros H0 Hstep. unfold for_range.
  destruct (for_each_seq_inv Inv body n 0%nat s) as (s' & ? & ?); eauto.
  intros i t Hi. apply Hstep. lia.
Qed.

End LoopRule.

(** ** The double loop over the pixels *)

Section Painting.
Import PIL.
Variables (gray : image Z) (paint : Z -> result rgba) (colour : Z -> rgba).
Variable body : nat -> nat -> image rgba -> result (image rgba).

Hypothesis gray_wf : well_formed gray.
Hypothesis paint_ok : forall v, v ∈ pixels gray -> paint v = Ok (colour v).
Hypothesis body_eq : forall y x processed,
  body y x processed =
    (pixel ← getpixel gray (x, y);
     value ← paint pixel;
     putpixel processed (x, y) value).

Lemma paint_one (fill : list rgba) k v :
  length fill = length (pixels gray) ->
  pixels gray !! k = Some v ->
  <[k := colour v]> ((colour <$> take k (pixels gray)) ++ drop k fill) =
  (colour <$> take (Datatypes.S k) (pixels gray)) ++ drop (Datatypes.S k) fill.
Proof.
  intros Hlen Hk.
  pose proof (lookup_lt_Some _ _ _ Hk) as Hlt.
  destruct (lookup_lt_is_Some_2 fill k) as [old Hold]; [lia |].
  rewrite (take_S_r _ _ _ Hk), fmap_app, <- assoc_L by apply _. simpl.
  rewrite (drop_S _ _ _ Hold).
  rewrite insert_app_r_alt; rewrite length_fmap, length_take; [| lia].
  by replace (k - k `min` length (pixels gray))%nat with 0%nat by lia.
Qed.

Lemma body_paints fill y x processed :
  length fill = length (pixels gray) ->
  (y < height gray)%nat -> (x < width gray)%nat ->
  painted_upto gray colour fill (y * width gray + x) processed ->
  exists processed', body y x processed = Ok processed' /\
    painted_upto gray colour fill (y * width gray + Datatypes.S x) processed'.
Proof.
  intros Hlen Hy Hx (Hw & Hh & Hpx).
  assert (y * width gray + x < length (pixels gray))%nat as Hlt.
  { rewrite gray_wf. nia. }
  destruct (lookup_lt_is_Some_2 _ _ Hlt) as [v Hv].
  rewrite body_eq. unfold getpixel, putpixel, in_bounds, offset. simpl.
  rewrite Hw, Hh.
  rewrite (proj2 (Nat.ltb_lt _ _) Hx), (proj2 (Nat.ltb_lt _ _) Hy). simpl.
  rewrite Hv. simpl.
  rewrite (paint_ok v) by (eapply list_elem_of_lookup_2; eauto). simpl.
  eexists. split; [done |]. repeat split; simpl; try done.
  rewrite Hpx, Nat.add_succ_r. by apply paint_one.
Qed.

(** Both loops return, and leave every pixel painted. *)
Lemma loops_paint (processed : image rgba) :
  width processed = width gray -> height processed = height gray ->
  well_formed processed ->
  for_range (height gray) (fun y processed =>
    for_range (width gray) (fun x processed => body y x processed) processed)
    processed
  = Ok (Image (width gray) (height gray) (colour <$> pixels gray)).
Proof.
  intros Hw Hh Hwf.
  assert (length (pixels processed) = length (pixels gray)) as Hlen.
  { rewrite Hwf, gray_wf. congruence. }
  destruct (for_range_inv
              (fun y p => painted_upto gray colour (pixels processed) (y * width gray) p)
              (fun y p => for_range (width gray) (fun x p => body y x p) p)
              (height gray) processed) as (out & Hout & Hw' & Hh' & Hpx).
  - repeat split; try done.
  - intros y p Hy Hinv.
    destruct (for_range_inv
                (fun x p => painted_upto gray colour (pixels processed) (y * width gray + x) p)
                (fun x p => body y x p) (width gray) p)
      as (p' & Hp' & Hinv').
    + by rewrite Nat.add_0_r.
    + intros x q Hx Hq. by apply body_paints.
    + exists p'. split; [done |].
      by replace (Datatypes.S y * width gray)%nat
        with (y * width gray + width gray)%nat by lia.
  - rewrite Hout. f_equal. destruct out as [w h px]. simpl in *. subst.
    rewrite <- gray_wf.
    rewrite take_ge, drop_ge by lia. by rewrite app_nil_r.
Qed.

End Painting.

(** ** Reading pixels of a recolored grid *)

Section Pixels.
Import PIL.
Context {P Q : Type}.

Lemma getpixel_in_bounds (im : image P) x y :
  well_formed im -> (x < width im)%nat -> (y < height im)%nat ->
  exists v, getpixel im (x, y) = Ok v.
Proof.
  intros Hwf Hx Hy. unfold getpixel, in_bounds, offset. simpl.
  rewrite (proj2 (Nat.ltb_lt _ _) Hx), (proj2 (Nat.ltb_lt _ _) Hy). simpl.
  destruct (lookup_lt_is_Some_2 (pixels im) (y * width im + x)) as [v ->];
    [rewrite Hwf; nia | eauto].
Qed.

Lemma getpixel_fmap (f : P -> Q) (im : image P) xy v :
  getpixel im xy = Ok v ->
  getpixel (Image (width im) (height im) (f <$> pixels im)) xy = Ok (f v).
Proof.
  unfold getpixel, in_bounds, offset. simpl.
  destruct (_ && _); [|done]. rewrite list_lookup_fmap.
  destruct (pixels im !! _); [|done]. by intros [= ->].
Qed.

Lemma fmap_well_formed (f : P -> Q) (im : image P) :
  well_formed im ->
  well_formed (Image (width im) (height im) (f <$> pixels im)).
Proof. unfold well_formed. simpl. by rewrite length_fmap. Qed.

Lemma new_well_formed (sz : nat * nat) (c : P) : well_formed (PIL.new sz c).
Proof. unfold well_formed, PIL.new. simpl. by rewrite length_replicate. Qed.

End Pixels.

(** ** Each script's loop computes the recolor of the specification *)

Section Refinement.
Import PIL.

Lemma gtb_decide (a b : Z) : (a >? b) = bool_decide (a > b).
Proof.
  rewrite Z.gtb_ltb. destruct (Z.ltb_spec b a).
  - by rewrite bool_decide_eq_true_2 by lia.
  - by rewrite bool_decide_eq_false_2 by lia.
Qed.

(** The shape all two-band loops share. *)
Lemma two_band_loops (gray : image Z) (T A : Z) :
  well_formed gray ->
  for_range (height gray) (fun y processed =>
    for_range (width gray) (fun x processed =>
      pixel ← getpixel gray (x, y);
      if pixel >? T then putpixel processed (x, y) (255, 255, 255, 255)
      else putpixel processed (x, y) (0, 0, 0, A))
      processed)
    (PIL.new (size gray) (0, 0, 0, 0))
  = Ok (Spec.recolor (Spec.recolor_pixel T A) gray).
Proof.
  intros Hwf.
  apply (loops_paint gray (fun v => Ok (Spec.recolor_pixel T A v))
           (Spec.recolor_pixel T A)
           (fun y x processed =>
              pixel ← getpixel gray (x, y);
              if pixel >? T then putpixel processed (x, y) (255, 255, 255, 255)
              else putpixel processed (x, y) (0, 0, 0, A))); try done.
  - intros y x p. destruct (getpixel gray (x, y)) as [v|e]; simpl; [|done].
    unfold Spec.recolor_pixel. rewrite gtb_decide. by destruct (bool_decide _).
  - apply new_well_formed.
Qed.

Lemma Final_refines gray bg_opacity A :
  well_formed gray -> background_alpha bg_opacity = Ok A ->
  Final.process_image gray bg_opacity
  = Ok (Spec.recolor (Spec.recolor_pixel 200 A) gray).
Proof.
  intros Hwf HA. unfold Final.process_image, background_alpha in *.
  rewrite HA. simpl. by apply two_band_loops.
Qed.

Lemma PoemTokImage_refines gray bg_opacity A :
  well_formed gray -> background_alpha bg_opacity = Ok A ->
  PoemTokImage.process_image gray bg_opacity
  = Ok (Spec.recolor (Spec.recolor_pixel 200 A) gray).
Proof.
  intros Hwf HA. unfold PoemTokImage.process_image, background_alpha in *.
  rewrite HA. simpl. by apply two_band_loops.
Qed.

Lemma StyledText_refines gray bg_opacity T A :
  well_formed gray -> background_alpha bg_opacity = Ok A ->
  StyledText.process_image_to_white_text gray bg_opacity T
  = Ok (Spec.recolor (Spec.recolor_pixel T A) gray).
Proof.
  intros Hwf HA.
  unfold StyledText.process_image_to_white_text, background_alpha in *.
  rewrite HA. simpl. by apply two_band_loops.
Qed.

End Refinement.

(** ** The mid-tone alpha of poemtok_screenshot.py *)

Section MidTones.
Import PIL.

(** [int(255 * (pixel / 255.0))] gives back [pixel] on every 8-bit
    value: checked by running the float computation on all 256. *)
Lemma mid_alpha_exact (pixel : Z) :
  0 <= pixel <= 255 ->
  int_of_float
    (PrimFloat.mul (float_of_int 255)
       (PrimFloat.div (float_of_int pixel) 255%float)) = Ok pixel.
Proof.
  intros Hp.
  assert (forallb (fun n =>
            match int_of_float
                    (PrimFloat.mul (float_of_int 255)
                       (PrimFloat.div (float_of_int (Z.of_nat n)) 255%float))
            with
            | Ok a => a =? Z.of_nat n
            | Raise _ => false
            end) (seq 0 256) = true) as Hall by (vm_compute; reflexivity).
  rewrite forallb_forall in Hall.
  specialize (Hall (Z.to_nat pixel)).
  rewrite Z2Nat.id in Hall by lia.
  destruct (int_of_float _) as [a|e].
  - f_equal. apply Z.eqb_eq, Hall, in_seq. lia.
  - exfalso. assert (false = true) as Hf by (apply Hall, in_seq; lia). done.
Qed.

Lemma Screenshot_refines gray bg_opacity A :
  well_formed gray ->
  background_alpha bg_opacity = Ok A ->
  Screenshot.process_image gray bg_opacity
  = Ok (Spec.recolor (Spec.recolor_pixel_3 200 A) gray).
Proof.
  intros Hwf HA. unfold Screenshot.process_image, background_alpha in *.
  rewrite HA. clear HA. simpl.
  apply (loops_paint gray
           (fun v =>
              if v >? 200 then Ok (255, 255, 255, 255)
              else if v >? 100 then
                alpha ← int_of_float
                          (PrimFloat.mul (float_of_int 255)
                             (PrimFloat.div (float_of_int v) 255%float));
                Ok (255, 255, 255, alpha)
              else Ok (0, 0, 0, A))
           (Spec.recolor_pixel_3 200 A)
           (fun y x processed =>
              pixel ← getpixel gray (x, y);
              if pixel >? 200 then
                putpixel processed (x, y) (255, 255, 255, 255)
              else if pixel >? 100 then
                alpha ← int_of_float
                          (PrimFloat.mul (float_of_int 255)
                             (PrimFloat.div (float_of_int pixel) 255%float));
                putpixel processed (x, y) (255, 255, 255, alpha)
              else
                putpixel processed (x, y) (0, 0, 0, A))); try done.
  - intros v Hv. unfold Spec.recolor_pixel_3. rewrite !gtb_decide.
    destruct (bool_decide_reflect (v > 200)); [done |].
    rewrite (bool_decide_ext (v > 100) (100 < v)) by lia.
    destruct (bool_decide_reflect (100 < v)); [| done].
    rewrite mid_alpha_exact by lia. done.
  - intros y x p. destruct (getpixel gray (x, y)) as [v|e]; simpl; [|done].
    destruct (v >? 200); [done |]. destruct (v >? 100); [| done].
    by destruct (int_of_float _).
  - apply new_well_formed.
Qed.

End MidTones.

(** ** The recolor contract *)

Section Contract.
Import PIL.

(** C1. Threshold recolor: a pixel with intensity above the threshold
    becomes (255,255,255,255); any other pixel, the one equal to the
    threshold included, becomes (0,0,0,A) with A the background alpha.
    poemtok_styled_text.py takes the threshold as a parameter,
    poemtok_final.py fixes it to 200. *)
Theorem C1_threshold_recolor (gray : image Z) (T A : Z) (bg_opacity : float) :
  well_formed gray ->
  background_alpha bg_opacity = Ok A ->
  0 <= A <= 255 ->
  exists styled final,
    StyledText.process_image_to_white_text gray bg_opacity T = Ok styled /\
    Final.process_image gray bg_opacity = Ok final /\
    forall x y I, getpixel gray (x, y) = Ok I ->
      (I > T -> getpixel styled (x, y) = Ok (255, 255, 255, 255)) /\
      (I <= T -> getpixel styled (x, y) = Ok (0, 0, 0, A)) /\
      (I = T -> getpixel styled (x, y) = Ok (0, 0, 0, A)) /\
      (I > 200 -> getpixel final (x, y) = Ok (255, 255, 255, 255)) /\
      (I <= 200 -> getpixel final (x, y) = Ok (0, 0, 0, A)).
Proof.
  intros Hwf HA _.
  exists (Spec.recolor (Spec.recolor_pixel T A) gray),
         (Spec.recolor (Spec.recolor_pixel 200 A) gray).
  split; [by apply StyledText_refines |].
  split; [by apply Final_refines |].
  intros x y I HI. unfold Spec.recolor.
  rewrite !(getpixel_fmap _ _ _ _ HI). unfold Spec.recolor_pixel.
  repeat split; intros; f_equal;
    destruct (bool_decide_reflect (I > T));
    destruct (bool_decide_reflect (I > 200)); done || lia.
Qed.

Lemma C1_threshold_recolor_witness :
  well_formed Sample.grid /\
  background_alpha Sample.opacity = Ok 204 /\
  0 <= 204 <= 255 /\
  exists styled final,
    StyledText.process_image_to_white_text Sample.grid Sample.opacity 180
      = Ok styled /\
    Final.process_image Sample.grid Sample.opacity = Ok final /\
    forall x y I, getpixel Sample.grid (x, y) = Ok I ->
      (I > 180 -> getpixel styled (x, y) = Ok (255, 255, 255, 255)) /\
      (I <= 180 -> getpixel styled (x, y) = Ok (0, 0, 0, 204)) /\
      (I = 180 -> getpixel styled (x, y) = Ok (0, 0, 0, 204)) /\
      (I > 200 -> getpixel final (x, y) = Ok (255, 255, 255, 255)) /\
      (I <= 200 -> getpixel final (x, y) = Ok (0, 0, 0, 204)).
Proof.
  split; [reflexivity |]. split; [vm_compute; reflexivity |].
  split; [lia |].
  apply (C1_threshold_recolor Sample.grid 180 204 Sample.opacity);
    [reflexivity | vm_compute; reflexivity | lia].
Defined.

(** C2. Three bands (poemtok_screenshot.py, T = 200): above 200 a pixel
    becomes opaque white; for 100 < I <= 200 it becomes white with alpha
    [int(255 * (I / 255.0))], which is I itself; at or below 100 it
    becomes (0,0,0,A). *)
Theorem C2_three_band_recolor (gray : image Z) (A : Z) (bg_opacity : float) :
  well_formed gray ->
  background_alpha bg_opacity = Ok A ->
  0 <= A <= 255 ->
  exists out,
    Screenshot.process_image gray bg_opacity = Ok out /\
    forall x y I, getpixel gray (x, y) = Ok I ->
      (I > 200 -> getpixel out (x, y) = Ok (255, 255, 255, 255)) /\
      (100 < I <= 200 ->
         getpixel out (x, y) = Ok (255, 255, 255, I) /\
         int_of_float
           (PrimFloat.mul (float_of_int 255)
              (PrimFloat.div (float_of_int I) 255%float)) = Ok I) /\
      (I <= 100 -> getpixel out (x, y) = Ok (0, 0, 0, A)).
Proof.
  intros Hwf HA _.
  exists (Spec.recolor (Spec.recolor_pixel_3 200 A) gray).
  split; [by apply Screenshot_refines |].
  intros x y I HI. unfold Spec.recolor.
  rewrite !(getpixel_fmap _ _ _ _ HI). unfold Spec.recolor_pixel_3.
  destruct (bool_decide_reflect (I > 200));
    destruct (bool_decide_reflect (100 < I));
    repeat split; intros; try lia; try done.
  apply mid_alpha_exact. lia.
Qed.

Lemma C2_three_band_recolor_witness :
  well_formed Sample.grid /\
  background_alpha Sample.opacity = Ok 204 /\
  0 <= 204 <= 255 /\
  exists out,
    Screenshot.process_image Sample.grid Sample.opacity = Ok out /\
    forall x y I, getpixel Sample.grid (x, y) = Ok I ->
      (I > 200 -> getpixel out (x, y) = Ok (255, 255, 255, 255)) /\
      (100 < I <= 200 ->
         getpixel out (x, y) = Ok (255, 255, 255, I) /\
         int_of_float
           (PrimFloat.mul (float_of_int 255)
              (PrimFloat.div (float_of_int I) 255%float)) = Ok I) /\
      (I <= 100 -> getpixel out (x, y) = Ok (0, 0, 0, 204)).
Proof.
  split; [reflexivity |]. split; [vm_compute; reflexivity |].
  split; [lia |].
  apply (C2_three_band_recolor Sample.grid 204 Sample.opacity);
    [reflexivity | vm_compute; reflexivity | lia].
Defined.










Lemma recolor_pixel_8bit (T A I : Z) :
  0 <= A <= 255 -> rgba_8bit (Spec.recolor_pixel T A I).
Proof.
  intros HA. unfold Spec.recolor_pixel.
  destruct (bool_decide _); simpl; lia.
Qed.

(** C5. Totality: on a well-formed 8-bit grid, with a threshold and a
    background alpha in 0..255, the recolor returns (it raises nothing),
    and the overlay has the width and the height of the input, one RGBA
    value per coordinate, each band within 0..255. *)
Theorem C5_recolor_total (gray : image Z) (T A : Z) (bg_opacity : float) :
  well_formed gray ->
  intensity_8bit gray ->
  0 <= T <= 255 ->
  background_alpha bg_opacity = Ok A ->
  0 <= A <= 255 ->
  (exists out,
     Final.process_image gray bg_opacity = Ok out /\
     width out = width gray /\ height out = height gray /\
     well_formed out /\ Forall rgba_8bit (pixels out)) /\
  (exists out,
     StyledText.process_image_to_white_text gray bg_opacity T = Ok out /\
     width out = width gray /\ height out = height gray /\
     well_formed out /\ Forall rgba_8bit (pixels out)).
Proof.
  intros Hwf _ _ HA HA8.
  split; eexists; (split; [by (apply Final_refines || apply StyledText_refines) |]);
    (repeat split; [by apply fmap_well_formed |]); simpl;
    apply Forall_fmap, Forall_true; intros I; by apply recolor_pixel_8bit.
Qed.

Lemma C5_recolor_total_witness :
  well_formed Sample.grid /\
  intensity_8bit Sample.grid /\
  0 <= 180 <= 255 /\
  background_alpha Sample.opacity = Ok 204 /\
  0 <= 204 <= 255 /\
  (exists out,
     Final.process_image Sample.grid Sample.opacity = Ok out /\
     width out = width Sample.grid /\ height out = height Sample.grid /\
     well_formed out /\ Forall rgba_8bit (pixels out)) /\
  (exists out,
     StyledText.process_image_to_white_text Sample.grid Sample.opacity 180
       = Ok out /\
     width out = width Sample.grid /\ height out = height Sample.grid /\
     well_formed out /\ Forall rgba_8bit (pixels out)).
Proof.
  assert (intensity_8bit Sample.grid) as H8.
  { unfold intensity_8bit. simpl. repeat constructor; lia. }
  split; [reflexivity |]. split; [exact H8 |]. split; [lia |].
  split; [vm_compute; reflexivity |]. split; [lia |].
  apply (C5_recolor_total Sample.grid 180 204 Sample.opacity);
    [reflexivity | exact H8 | lia | vm_compute; reflexivity | lia].
Defined.

(** C10. Two tones: with [A = int(255 * bg_opacity)] in 0..255, every
    coordinate of the overlay holds white with alpha 255 (or, in the
    mid-tone band of poemtok_screenshot.py, white with the source
    intensity as alpha) or black with alpha A, and nothing else.  The
    transparent fill of [Image.new] is overwritten everywhere: a pixel
    reads (0,0,0,0) only as a background pixel painted with A = 0. *)
Theorem C10_two_tone_overlay (gray : image Z) (A : Z) (bg_opacity : float) :
  well_formed gray ->
  background_alpha bg_opacity = Ok A ->
  0 <= A <= 255 ->
  (exists out,
     Final.process_image gray bg_opacity = Ok out /\
     PoemTokImage.process_image gray bg_opacity = Ok out /\
     size out = size gray /\
     forall x y, (x < width gray)%nat -> (y < height gray)%nat ->
       exists I, getpixel gray (x, y) = Ok I /\
         (getpixel out (x, y) = Ok (255, 255, 255, 255) /\ I > 200 \/
          getpixel out (x, y) = Ok (0, 0, 0, A) /\ I <= 200) /\
         (getpixel out (x, y) = Ok (0, 0, 0, 0) -> A = 0 /\ I <= 200)) /\
  (exists out,
     Screenshot.process_image gray bg_opacity = Ok out /\
     size out = size gray /\
     forall x y, (x < width gray)%nat -> (y < height gray)%nat ->
       exists I, getpixel gray (x, y) = Ok I /\
         (getpixel out (x, y) = Ok (255, 255, 255, 255) /\ I > 200 \/
          getpixel out (x, y) = Ok (255, 255, 255, I) /\ 100 < I <= 200 \/
          getpixel out (x, y) = Ok (0, 0, 0, A) /\ I <= 100) /\
         (getpixel out (x, y) = Ok (0, 0, 0, 0) -> A = 0 /\ I <= 100)).
Proof.
  intros Hwf HA _. split.
  - exists (Spec.recolor (Spec.recolor_pixel 200 A) gray).
    split; [by apply Final_refines |].
    split; [by apply PoemTokImage_refines |].
    split; [done |].
    intros x y Hx Hy.
    destruct (getpixel_in_bounds gray x y) as [I HI]; try done.
    exists I. split; [done |].
    unfold Spec.recolor. rewrite (getpixel_fmap _ _ _ _ HI).
    unfold Spec.recolor_pixel.
    destruct (bool_decide_reflect (I > 200)).
    + split; [by left |]. intros [=].
    + split; [right; split; [done | lia] |]. intros [= <-]. lia.
  - exists (Spec.recolor (Spec.recolor_pixel_3 200 A) gray).
    split; [by apply Screenshot_refines |].
    split; [done |].
    intros x y Hx Hy.
    destruct (getpixel_in_bounds gray x y) as [I HI]; try done.
    exists I. split; [done |].
    unfold Spec.recolor. rewrite (getpixel_fmap _ _ _ _ HI).
    unfold Spec.recolor_pixel_3.
    destruct (bool_decide_reflect (I > 200));
      [| destruct (bool_decide_reflect (100 < I))].
    + split; [by left |]. intros [=].
    + split; [right; left; split; [done | lia] |]. intros [=].
    + split; [right; right; split; [done | lia] |]. intros [= <-]. lia.
Qed.

Lemma C10_two_tone_overlay_witness :
  well_formed Sample.grid /\
  background_alpha Sample.opacity = Ok 204 /\
  0 <= 204 <= 255 /\
  (exists out,
     Final.process_image Sample.grid Sample.opacity = Ok out /\
     PoemTokImage.process_image Sample.grid Sample.opacity = Ok out /\
     size out = size Sample.grid /\
     forall x y, (x < width Sample.grid)%nat -> (y < height Sample.grid)%nat ->
       exists I, getpixel Sample.grid (x, y) = Ok I /\
         (getpixel out (x, y) = Ok (255, 255, 255, 255) /\ I > 200 \/
          getpixel out (x, y) = Ok (0, 0, 0, 204) /\ I <= 200) /\
         (getpixel out (x, y) = Ok (0, 0, 0, 0) -> 204 = 0 /\ I <= 200)) /\
  (exists out,
     Screenshot.process_image Sample.grid Sample.opacity = Ok out /\
     size out = size Sample.grid /\
     forall x y, (x < width Sample.grid)%nat -> (y < height Sample.grid)%nat ->
       exists I, getpixel Sample.grid (x, y) = Ok I /\
         (getpixel out (x, y) = Ok (255, 255, 255, 255) /\ I > 200 \/
          getpixel out (x, y) = Ok (255, 255, 255, I) /\ 100 < I <= 200 \/
          getpixel out (x, y) = Ok (0, 0, 0, 204) /\ I <= 100) /\
         (getpixel out (x, y) = Ok (0, 0, 0, 0) -> 204 = 0 /\ I <= 100)).
Proof.
  split; [reflexivity |]. split; [vm_compute; reflexivity |].
  split; [lia |].
  apply (C10_two_tone_overlay Sample.grid 204 Sample.opacity);
    [reflexivity | vm_compute; reflexivity | lia].
Defined.

End Contract.

(** ** The fallback chain of poemtok_fixed.py *)

Section FallbackChain.
Import Fixed.
Context {path : Type}.

Lemma create_video_direct_eq (w : world) (out : path) :
  create_video_direct w out =
  Io [ffmpeg_direct] (Ok (if direct_succeeds w then Some out else None)).
Proof.
  unfold create_video_direct, direct_succeeds, run, call, check_returncode,
    try_except.
  destruct (returncode w ffmpeg_direct =? 0); reflexivity.
Qed.

Lemma create_video_alternative_eq (w : world) (out : path) :
  remove_temp w = Ok () ->
  create_video_alternative w out =
  Io (alternative_trace w ++
        if alternative_succeeds w then [] else [ffmpeg_direct])
     (Ok (if alternative_succeeds w || direct_succeeds w
          then Some out else None)).
Proof.
  intros Hremove.
  unfold create_video_alternative. rewrite create_video_direct_eq, Hremove.
  unfold alternative_succeeds, alternative_trace, run, call,
    check_returncode, try_except.
  destruct (returncode w ffmpeg_image_video =? 0);
    destruct (returncode w ffmpeg_overlay_video =? 0); reflexivity.
Qed.

(** The whole chain in one equation: which commands run, and what is
    returned. *)
Lemma create_video_with_overlay_eq (w : world) (out : path) :
  makedirs w = Ok () ->
  remove_temp w = Ok () ->
  create_video_with_overlay w out =
  Io (primary_trace w ++
        if primary_succeeds w then []
        else alternative_trace w ++
               if alternative_succeeds w then [] else [ffmpeg_direct])
     (Ok (if primary_succeeds w || alternative_succeeds w || direct_succeeds w
          then Some out else None)).
Proof.
  intros Hmakedirs Hremove.
  unfold create_video_with_overlay.
  rewrite Hmakedirs, (create_video_alternative_eq w out Hremove).
  unfold mbind at 1, io_bind at 1. cbn [outcome trace app].
  unfold primary_succeeds, primary_trace, float_of_str, run, call,
    check_returncode, try_except, raise.
  destruct (returncode w ffmpeg_overlay =? 0); [| reflexivity].
  destruct (returncode w ffprobe_duration =? 0); [| reflexivity].
  destruct (duration w) as [d|]; [| reflexivity].
  unfold mbind, io_bind, mret, io_ret. simpl.
  destruct (PrimFloat.ltb d _); reflexivity.
Qed.

Lemma alternative_trace_starts (w : world) :
  (ffmpeg_image_video ∈ alternative_trace w) /\
  (ffmpeg_direct ∉ alternative_trace w) /\
  (ffmpeg_direct ∉ primary_trace w).
Proof.
  unfold alternative_trace, primary_trace.
  destruct (returncode w ffmpeg_image_video =? 0);
    destruct (returncode w ffmpeg_overlay =? 0);
    repeat split;
    rewrite ?not_elem_of_cons, ?elem_of_cons, ?elem_of_nil; naive_solver.
Qed.

(** C7. The fallback chain of [create_video_with_overlay], once the
    directory of the output path is there and as long as the temporary
    video can be removed: a non-zero exit of the first ffmpeg call, a
    probed duration below 0.1 s or a duration that does not parse sends
    it to the alternative method; a failure there sends it to the
    direct method.  The output path is returned at the first level that
    succeeds without running a later one, and [None] is returned
    exactly when all three levels fail.  No exit status makes the
    function raise. *)
Theorem C7_fallback_chain (w : world) (output_path : path) :
  makedirs w = Ok () ->
  remove_temp w = Ok () ->
  (returncode w ffmpeg_overlay <> 0 ->
     ffmpeg_image_video ∈ trace (create_video_with_overlay w output_path)) /\
  (returncode w ffmpeg_overlay = 0 -> returncode w ffprobe_duration = 0 ->
     (duration w = None \/
      exists d, duration w = Some d /\
                PrimFloat.ltb d 0x1.999999999999ap-4%float = true) ->
     ffmpeg_image_video ∈ trace (create_video_with_overlay w output_path)) /\
  (primary_succeeds w = false -> alternative_succeeds w = false ->
     ffmpeg_direct ∈ trace (create_video_with_overlay w output_path)) /\
  (primary_succeeds w = true ->
     create_video_with_overlay w output_path
     = Io [ffmpeg_overlay; ffprobe_duration] (Ok (Some output_path))) /\
  (primary_succeeds w = false -> alternative_succeeds w = true ->
     outcome (create_video_with_overlay w output_path) = Ok (Some output_path) /\
     ffmpeg_direct ∉ trace (create_video_with_overlay w output_path)) /\
  (primary_succeeds w = false -> alternative_succeeds w = false ->
     direct_succeeds w = true ->
     outcome (create_video_with_overlay w output_path) = Ok (Some output_path)) /\
  (outcome (create_video_with_overlay w output_path) = Ok None <->
     primary_succeeds w = false /\ alternative_succeeds w = false /\
     direct_succeeds w = false) /\
  (exists r, outcome (create_video_with_overlay w output_path) = Ok r).
Proof.
  intros Hmakedirs Hremove.
  rewrite (create_video_with_overlay_eq w output_path Hmakedirs Hremove).
  simpl.
  destruct (alternative_trace_starts w) as (Halt & Hnd & Hnp).
  assert (forall b, primary_succeeds w = false ->
            ffmpeg_image_video ∈
              primary_trace w ++
                (if primary_succeeds w then []
                 else alternative_trace w ++
                        (if b : bool then [] else [ffmpeg_direct]))) as Hto_alt.
  { intros b ->. apply elem_of_app. right. apply elem_of_app. by left. }
  split_and!.
  - intros Hrc. apply Hto_alt. unfold primary_succeeds.
    by rewrite (proj2 (Z.eqb_neq _ _) Hrc).
  - intros Hrc Hprobe Hdur. apply Hto_alt. unfold primary_succeeds.
    rewrite Hrc, Hprobe. simpl.
    destruct Hdur as [-> | (d & -> & ->)]; reflexivity.
  - intros -> ->. rewrite !elem_of_app. right. right.
    by apply list_elem_of_singleton.
  - intros Hp. rewrite Hp. simpl. rewrite app_nil_r. f_equal.
    unfold primary_succeeds in Hp. unfold primary_trace.
    destruct (returncode w ffmpeg_overlay =? 0); [done | discriminate].
  - intros -> ->. split; [reflexivity |].
    by rewrite app_nil_r, not_elem_of_app.
  - intros -> -> ->. reflexivity.
  - destruct (primary_succeeds w), (alternative_succeeds w),
      (direct_succeeds w); simpl; split; try done; intros (? & ? & ?); done.
  - eauto.
Qed.

(** Without a directory to write into, no command is run. *)
Lemma create_video_with_overlay_no_directory (w : world) (out : path)
    (e : exn) :
  makedirs w = Raise e ->
  create_video_with_overlay w out = Io [] (Raise e).
Proof.
  intros Hmakedirs. unfold create_video_with_overlay. by rewrite Hmakedirs.
Qed.

End FallbackChain.

Lemma C7_fallback_chain_witness :
  Fixed.makedirs Cases.fixed_world = Ok () /\
  Fixed.remove_temp Cases.fixed_world = Ok () /\
  (Fixed.primary_succeeds Cases.fixed_world = false ->
   Fixed.alternative_succeeds Cases.fixed_world = true ->
   outcome (Fixed.create_video_with_overlay Cases.fixed_world 7) = Ok (Some 7) /\
   Fixed.ffmpeg_direct
     ∉ trace (Fixed.create_video_with_overlay Cases.fixed_world 7)).
Proof.
  split; [reflexivity |]. split; [reflexivity |].
  apply (C7_fallback_chain Cases.fixed_world 7); reflexivity.
Defined.

(** ** Page ranges *)

Section PageRanges.
Import PyList.

Lemma elem_of_range (a b i : Z) : i ∈ range a b <-> a <= i < b.
Proof.
  unfold range. rewrite list_elem_of_fmap. split.
  - intros (k & -> & Hk%elem_of_seq). lia.
  - intros Hi. exists (Z.to_nat (i - a)). split; [lia |].
    apply elem_of_seq. lia.
Qed.

Lemma index_in_range {A} (l : list A) (i : Z) :
  0 <= i < Z.of_nat (length l) -> exists a, index l i = Ok a.
Proof.
  intros Hi. unfold index.
  destruct (Z.ltb_spec i 0); [lia |].
  destruct (Z.leb_spec 0 i); [| lia].
  destruct (Z.ltb_spec i (Z.of_nat (length l))); [| lia]. simpl.
  destruct (lookup_lt_is_Some_2 l (Z.to_nat i)) as [a ->]; [lia | eauto].
Qed.

Lemma enumerate_fmap {A B} (f : Z -> B) (l : list A) :
  (fun '(i, _) => f i) <$> enumerate l
  = (fun k : nat => f (Z.of_nat k)) <$> seq 0 (length l).
Proof.
  unfold enumerate. rewrite fmap_imap.
  by rewrite <- (imap_seq_0 l (fun k : nat => f (Z.of_nat k))).
Qed.

(** The image paths of poemtok_image.py are the pages of the adjusted
    range. *)
Lemma convert_pdf_to_images_eq (w : PoemTokImage.world) start_page end_page :
  PoemTokImage.convert_pdf_to_images w start_page end_page
  = range
      (PageRange.adjust (Z.of_nat (PoemTokImage.total_pages w))
         start_page end_page).1
      ((PageRange.adjust (Z.of_nat (PoemTokImage.total_pages w))
          start_page end_page).2 + 1).
Proof.
  unfold PoemTokImage.convert_pdf_to_images.
  destruct (PageRange.adjust _ _ _) as [s e]. simpl.
  rewrite (enumerate_fmap (fun i => i + s)).
  unfold range. rewrite length_fmap, length_seq.
  apply list_fmap_ext. intros _ k _. lia.
Qed.

Lemma range_shift (a b : Z) : (fun i => i + 1) <$> range (a - 1) b = range a (b + 1).
Proof.
  unfold range. rewrite <- list_fmap_compose.
  replace (b + 1 - a) with (b - (a - 1)) by lia.
  apply list_fmap_ext. intros _ k _. simpl. lia.
Qed.

Lemma written_app (t1 t2 : list PoemTok.event) :
  PoemTok.written (t1 ++ t2) = PoemTok.written t1 ++ PoemTok.written t2.
Proof. apply omap_app. Qed.

(** The overlay of a page is made without writing a video. *)
Lemma written_overlay (w : PoemTok.world) resolution has_pytesseract page :
  PoemTok.written
    (trace (PoemTok.create_text_overlay w resolution has_pytesseract page))
  = [].
Proof.
  assert (trace (PoemTok.image_based_overlay w resolution page) = [])
    as Hquiet.
  { unfold PoemTok.image_based_overlay, PIL.size. by destruct (_ || _). }
  unfold PoemTok.create_text_overlay.
  destruct (PoemTok.image_based_overlay w resolution page) as [t fallback].
  simpl in Hquiet. subst t.
  unfold try_except, call, mbind, io_bind.
  destruct has_pytesseract; simpl; [| by destruct fallback].
  destruct (PoemTok.image_to_string w page) as [text | e]; simpl;
    [| by destruct fallback].
  destruct (negb _ && _); simpl; [| by destruct fallback].
  destruct (PoemTok.create_minimalist_overlay w text); simpl; [done |].
  by destruct fallback.
Qed.

(** One round of the loop of [process] of poemtok.py: a video is
    written for page [i] or for none, and a round that returns has
    written the video of page [i] and names it [i + 1]. *)
Lemma add_page_written (w : PoemTok.world) resolution has_pytesseract b
    (pages : list (PIL.image PIL.rgba)) (i : Z) (output_videos : list Z) :
  (PoemTok.written
     (trace (PoemTok.add_page w resolution has_pytesseract b pages i
               output_videos)) = [] \/
   PoemTok.written
     (trace (PoemTok.add_page w resolution has_pytesseract b pages i
               output_videos)) = [i]) /\
  (forall videos,
     outcome (PoemTok.add_page w resolution has_pytesseract b pages i
                output_videos) = Ok videos ->
     PoemTok.written
       (trace (PoemTok.add_page w resolution has_pytesseract b pages i
                 output_videos)) = [i] /\
     videos = output_videos ++ [i + 1]).
Proof.
  pose proof (written_overlay w resolution has_pytesseract) as Hoverlay.
  unfold PoemTok.add_page, PoemTok.create_video.
  destruct (index pages i) as [page | e]; [| split; [by left | done]].
  destruct (PoemTok.copy b i) as [[] | e]; [| split; [by left | done]].
  specialize (Hoverlay page).
  unfold call, mbind, io_bind. cbn [outcome trace app].
  destruct (PoemTok.create_text_overlay w resolution has_pytesseract page)
    as [t [overlay | e]]; cbn [outcome trace app] in *;
    [| split; [by left | done]].
  destruct (PoemTok.write_videofile w i) as [[] | e];
    cbn [outcome trace app mret io_ret];
    rewrite ?app_nil_r, written_app, Hoverlay; simpl.
  - split; [by right |]. by intros videos [= <-].
  - split; [by right | done].
Qed.


(** [prepare_background_video] runs no tool of the trace. *)
Lemma prepare_trace resolution (b : PoemTok.background) :
  trace (PoemTok.prepare_background_video resolution b) = [].
Proof.
  unfold PoemTok.prepare_background_video, mbind, io_bind, raise.
  destruct (PoemTok.video_file_clip b); cbn [outcome trace app];
    [by destruct (_ =? _)%nat | done].
Qed.



End PageRanges.

(** ** Batches *)

Section Batches.
Import PyList.

Lemma create_video_with_image_eq (w : PoemTokImage.world) (image_path out : Z) :
  PoemTokImage.create_video_with_image w image_path out
  = Io [image_path]
       (Ok (if PoemTokImage.returncode w image_path =? 0 then Some out
            else None)).
Proof.
  unfold PoemTokImage.create_video_with_image, call, check_returncode,
    try_except.
  destruct (PoemTokImage.returncode w image_path =? 0); reflexivity.
Qed.

Lemma image_loop_eq (w : PoemTokImage.world) (start_page : Z)
    (l : list (Z * Z)) : forall output_videos,
  for_each_io (PoemTokImage.add_video w start_page) l output_videos
  = Io (snd <$> l) (Ok (output_videos ++ omap (PoemTokImage.video_of w start_page) l)).
Proof.
  induction l as [| [i image_path] l IH]; intros output_videos.
  - simpl. by rewrite app_nil_r.
  - cbn [for_each_io fmap list_fmap omap list_omap].
    assert (PoemTokImage.add_video w start_page (i, image_path) output_videos
            = Io [image_path]
                 (Ok (output_videos
                      ++ option_list
                           (PoemTokImage.video_of w start_page
                              (i, image_path))))) as ->.
    { unfold PoemTokImage.add_video, PoemTokImage.video_of.
      rewrite create_video_with_image_eq. cbn [fst snd].
      unfold mbind, io_bind. cbn [outcome trace].
      destruct (PoemTokImage.returncode w image_path =? 0); simpl;
        by rewrite ?app_nil_r. }
    unfold mbind, io_bind. cbn [outcome trace]. rewrite IH.
    cbn [outcome trace app snd]. f_equal. f_equal.
    rewrite <- (assoc_L (++)). f_equal.
    by destruct (PoemTokImage.video_of w start_page (i, image_path)).
Qed.

(** The first loop of [process] of poemtok_image.py returns when every
    image is processed. *)
Lemma stage_returns (w : PoemTokImage.world) (l : list Z) :
  (forall page, page ∈ l ->
     exists out,
       PoemTokImage.process_image_file (PoemTokImage.pillow w)
         (PoemTokImage.invert w) (PoemTokImage.bg_opacity w)
         (PoemTokImage.page_image w page) = Ok out) ->
  forall processed_images,
    for_each (PoemTokImage.add_processed w) l processed_images
    = Ok (processed_images ++ l).
Proof.
  induction l as [| page l IH]; intros Hpages processed_images.
  - simpl. by rewrite app_nil_r.
  - assert (PoemTokImage.add_processed w page processed_images
            = Ok (processed_images ++ [page])) as Hround.
    { unfold PoemTokImage.add_processed.
      by destruct (Hpages page) as [out ->]; [by left |]. }
    cbn [for_each]. rewrite Hround. unfold mbind, result_bind.
    rewrite IH by (intros p Hp; apply Hpages; by right).
    by rewrite <- (assoc_L (++)).
Qed.

(** An image is processed when Pillow hands over a raster that matches
    its size and the opacity converts to an int. *)
Lemma process_image_file_returns (w : PoemTokImage.world) (A : Z) (page : Z) :
  PIL.well_formed
    (PoemTokImage.smoothed (PoemTokImage.pillow w) (PoemTokImage.invert w)
       (PoemTokImage.page_image w page)) ->
  background_alpha (PoemTokImage.bg_opacity w) = Ok A ->
  PoemTokImage.process_image_file (PoemTokImage.pillow w)
    (PoemTokImage.invert w) (PoemTokImage.bg_opacity w)
    (PoemTokImage.page_image w page)
  = Ok (Spec.recolor (Spec.recolor_pixel 200 A)
          (PoemTokImage.smoothed (PoemTokImage.pillow w)
             (PoemTokImage.invert w) (PoemTokImage.page_image w page))).
Proof.
  intros Hwf HA. unfold PoemTokImage.process_image_file.
  by apply PoemTokImage_refines.
Qed.

(** An opacity that [int] cannot convert stops [process_image] before
    its loop, whatever the image. *)
Lemma process_image_file_raises (w : PoemTokImage.world) (e : exn) (page : Z) :
  background_alpha (PoemTokImage.bg_opacity w) = Raise e ->
  PoemTokImage.process_image_file (PoemTokImage.pillow w)
    (PoemTokImage.invert w) (PoemTokImage.bg_opacity w)
    (PoemTokImage.page_image w page)
  = Raise e.
Proof.
  intros HA. unfold PoemTokImage.process_image_file,
    PoemTokImage.process_image.
  unfold background_alpha in HA. by rewrite HA.
Qed.

Lemma enumerate_snd {A} (l : list A) : snd <$> enumerate l = l.
Proof.
  unfold enumerate. rewrite fmap_imap.
  change (fun n : nat => snd ∘ (fun a : A => (Z.of_nat n, a)))
    with (@const (A -> A) nat id).
  by rewrite imap_const, list_fmap_id.
Qed.

Lemma range_split (a i b : Z) :
  a <= i < b -> range a b = range a i ++ i :: range (i + 1) b.
Proof.
  intros Hi. unfold range.
  replace (Z.to_nat (b - a))
    with (Z.to_nat (i - a) + Datatypes.S (Z.to_nat (b - (i + 1))))%nat by lia.
  rewrite seq_app, fmap_app. f_equal. cbn [seq fmap list_fmap].
  f_equal; [lia |].
  replace (seq (Datatypes.S (0 + Z.to_nat (i - a))) (Z.to_nat (b - (i + 1))))
    with (Nat.add (Datatypes.S (Z.to_nat (i - a)))
          <$> seq 0 (Z.to_nat (b - (i + 1))))
    by (rewrite fmap_add_seq; f_equal; lia).
  rewrite <- list_fmap_compose. apply list_fmap_ext. intros _ k _. simpl. lia.
Qed.

(** A loop that catches nothing ends with the first element whose round
    raises: the elements after it add nothing to the run. *)
Lemma for_each_io_stops {E A S} (body : A -> S -> io E S) (x : A)
    (before after : list A) :
  (forall s, exists e, outcome (body x s) = Raise e) ->
  forall s,
    for_each_io body (before ++ x :: after) s
    = for_each_io body (before ++ [x]) s.
Proof.
  intros Hraise. induction before as [| y before IH]; intros s.
  - cbn [app for_each_io]. unfold mbind, io_bind.
    by destruct (Hraise s) as [e ->].
  - cbn [app for_each_io]. unfold mbind, io_bind.
    destruct (outcome (body y s)) as [s' | e]; [| done].
    by rewrite IH.
Qed.

Lemma range_snoc (a i : Z) : a <= i -> range a (i + 1) = range a i ++ [i].
Proof.
  intros Hi. unfold range.
  replace (Z.to_nat (i + 1 - a)) with (Z.to_nat (i - a) + 1)%nat by lia.
  rewrite seq_app, fmap_app. f_equal. cbn [seq fmap list_fmap].
  f_equal. lia.
Qed.

(** A loop of [process] of poemtok.py that meets a page whose round
    raises: it raises, and the videos written are those of a first part
    of the pages up to that one. *)
Lemma page_loop_stops (w : PoemTok.world) resolution has_pytesseract b
    (pages : list (PIL.image PIL.rgba)) (i : Z) (before after : list Z) :
  (forall output_videos, exists e,
     outcome (PoemTok.add_page w resolution has_pytesseract b pages i
                output_videos) = Raise e) ->
  forall output_videos,
    (exists k,
       PoemTok.written
         (trace (for_each_io
                   (PoemTok.add_page w resolution has_pytesseract b pages)
                   (before ++ i :: after) output_videos))
       = take k (before ++ [i])) /\
    (exists e,
       outcome (for_each_io
                  (PoemTok.add_page w resolution has_pytesseract b pages)
                  (before ++ i :: after) output_videos) = Raise e).
Proof.
  intros Hraise. induction before as [| j before IH]; intros output_videos.
  - cbn [app for_each_io]. unfold mbind, io_bind.
    destruct (add_page_written w resolution has_pytesseract b pages i
                output_videos) as [Hround _].
    destruct (Hraise output_videos) as [e ->]. cbn [outcome trace].
    split; [| by exists e].
    destruct Hround as [-> | ->]; [by exists 0%nat | by exists 1%nat].
  - cbn [app for_each_io]. unfold mbind, io_bind.
    destruct (add_page_written w resolution has_pytesseract b pages j
                output_videos) as [Hround Hreturns].
    destruct (outcome (PoemTok.add_page w resolution has_pytesseract b pages
                         j output_videos)) as [acc | e] eqn:Hout.
    + destruct (Hreturns acc eq_refl) as [Hwritten _].
      destruct (IH acc) as [[k Hk] Hloop].
      cbn [outcome trace]. rewrite written_app, Hwritten. split; [| done].
      exists (Datatypes.S k). simpl. by rewrite Hk.
    + cbn [outcome trace]. split; [| by exists e].
      destruct Hround as [-> | ->]; [by exists 0%nat | by exists 1%nat].
Qed.

(** C8, as the scripts have it.  In poemtok_image.py every image is
    processed first; if the opacity is one that [int] cannot convert,
    [process] raises on the first image and no video is attempted.
    With an opacity that gives an 8-bit alpha, a page whose ffmpeg call
    exits non-zero gives [None] and the loop goes on: every page of the
    selected range is attempted, in order, the call returns, and it
    returns the videos of exactly the pages that exited with 0.  In
    poemtok.py nothing catches what [create_video] raises: if it raises
    for a selected page, [process] raises and writes no video for a
    later page. *)
Theorem C8_batch_isolation (w : PoemTokImage.world) (start_page : Z)
    (end_page : option Z) :
  (forall A,
     background_alpha (PoemTokImage.bg_opacity w) = Ok A ->
     0 <= A <= 255 ->
     (forall page,
        page ∈ PoemTokImage.convert_pdf_to_images w start_page end_page ->
        PIL.well_formed
          (PoemTokImage.smoothed (PoemTokImage.pillow w)
             (PoemTokImage.invert w) (PoemTokImage.page_image w page))) ->
     trace (PoemTokImage.process w start_page end_page)
       = PoemTokImage.convert_pdf_to_images w start_page end_page /\
     outcome (PoemTokImage.process w start_page end_page)
       = Ok (omap (PoemTokImage.video_of w start_page)
               (enumerate
                  (PoemTokImage.convert_pdf_to_images w start_page
                     end_page)))) /\
  (forall e,
     background_alpha (PoemTokImage.bg_opacity w) = Raise e ->
     PoemTokImage.convert_pdf_to_images w start_page end_page <> [] ->
     PoemTokImage.process w start_page end_page = Io [] (Raise e)) /\
  (forall (pw : PoemTok.world) resolution has_pytesseract b pages i page e,
     i ∈ range
           ((PageRange.adjust (Z.of_nat (length pages)) start_page end_page).1 - 1)
           (PageRange.adjust (Z.of_nat (length pages)) start_page end_page).2 ->
     index pages i = Ok page ->
     outcome (PoemTok.create_video pw resolution has_pytesseract i page)
       = Raise e ->
     (exists e',
        outcome (PoemTok.process pw resolution has_pytesseract b pages
                   start_page end_page) = Raise e') /\
     (forall j, i < j ->
        PoemTok.write_videofile_call j
          ∉ trace (PoemTok.process pw resolution has_pytesseract b pages
                     start_page end_page)) /\
     PoemTok.process pw resolution has_pytesseract b pages start_page end_page
     = (_ ← PoemTok.prepare_background_video resolution b;
        for_each_io (PoemTok.add_page pw resolution has_pytesseract b pages)
          (range
             ((PageRange.adjust (Z.of_nat (length pages)) start_page
                 end_page).1 - 1)
             (i + 1))
          [])).
Proof.
  split_and!.
  - intros A HA _ Hwf. unfold PoemTokImage.process.
    rewrite (stage_returns w _) by
      (intros page Hpage; eexists;
       apply (process_image_file_returns w A page); [by apply Hwf | done]).
    rewrite app_nil_l.
    unfold mbind, io_bind. cbn [outcome trace app].
    rewrite image_loop_eq. cbn [outcome trace app].
    split; [apply enumerate_snd | done].
  - intros e HA Hpages. unfold PoemTokImage.process.
    destruct (PoemTokImage.convert_pdf_to_images w start_page end_page)
      as [| page l]; [done |].
    assert (PoemTokImage.add_processed w page [] = Raise e) as Hround.
    { unfold PoemTokImage.add_processed.
      by rewrite (process_image_file_raises w e page HA). }
    cbn [for_each]. by rewrite Hround.
  - intros pw resolution has b pages i page e Hi Hpage Hraise.
    assert (forall output_videos, exists e0,
              outcome (PoemTok.add_page pw resolution has b pages i
                         output_videos) = Raise e0) as Hround.
    { intros output_videos. unfold PoemTok.add_page. rewrite Hpage.
      unfold mbind, io_bind. cbn [outcome trace app].
      destruct (PoemTok.copy b i) as [[] | e0]; cbn [outcome trace app];
        [| by exists e0].
      rewrite Hraise. by exists e. }
    unfold PoemTok.process.
    destruct (PageRange.adjust _ _ _) as [first_page last_page].
    cbn [fst snd] in *. apply elem_of_range in Hi.
    rewrite (range_split (first_page - 1) i last_page Hi).
    rewrite (range_snoc (first_page - 1) i) by lia.
    rewrite (for_each_io_stops _ i _ (range (i + 1) last_page) Hround).
    split_and!; [| | done].
    + pose proof (prepare_trace resolution b) as Hquiet.
      unfold mbind, io_bind.
      destruct (PoemTok.prepare_background_video resolution b)
        as [t [[] | e0]]; cbn [outcome trace] in *; [| by exists e0].
      destruct (page_loop_stops pw resolution has b pages i
                  (range (first_page - 1) i) [] Hround [])
        as [_ Hloop].
      exact Hloop.
    + intros j Hj Hin.
      pose proof (prepare_trace resolution b) as Hquiet.
      revert Hin. unfold mbind, io_bind.
      destruct (PoemTok.prepare_background_video resolution b)
        as [t [[] | e0]]; cbn [outcome trace] in *; subst t; cbn [app];
        [| apply not_elem_of_nil].
      destruct (page_loop_stops pw resolution has b pages i
                  (range (first_page - 1) i) [] Hround [])
        as [[k Hk] _].
      intros Hin.
      assert (j ∈ take k (range (first_page - 1) i ++ [i])) as Hwritten.
      { rewrite <- Hk. apply list_elem_of_omap.
        by exists (PoemTok.write_videofile_call j). }
      apply elem_of_take in Hwritten as (pos & Hwritten%list_elem_of_lookup_2 & _).
      apply elem_of_app in Hwritten as [Hbefore%elem_of_range | Hlast].
      * lia.
      * apply list_elem_of_singleton in Hlast. lia.
Qed.

(** C8 fails on poemtok.py: with three pages and a moviepy failure on
    the second, [process] raises after two pages; the third page is
    never attempted and no list of videos is returned. *)
Lemma C8_poemtok_aborts :
  PoemTok.process Sample.poemtok_world (1080%nat, 1920%nat) false
    Cases.background [Sample.page; Sample.page; Sample.page] 1 None
  = Io [PoemTok.write_videofile_call 0; PoemTok.write_videofile_call 1]
       (Raise OtherError) /\
  ~ (exists videos,
       outcome (PoemTok.process Sample.poemtok_world (1080%nat, 1920%nat) false
                  Cases.background [Sample.page; Sample.page; Sample.page]
                  1 None)
       = Ok videos) /\
  PoemTok.write_videofile_call 2
    ∉ trace (PoemTok.process Sample.poemtok_world (1080%nat, 1920%nat) false
               Cases.background [Sample.page; Sample.page; Sample.page]
               1 None).
Proof.
  assert (PoemTok.process Sample.poemtok_world (1080%nat, 1920%nat) false
            Cases.background [Sample.page; Sample.page; Sample.page] 1 None
          = Io [PoemTok.write_videofile_call 0; PoemTok.write_videofile_call 1]
               (Raise OtherError)) as Heq by (vm_compute; reflexivity).
  rewrite Heq. simpl. split_and!.
  - reflexivity.
  - intros [videos [=]].
  - rewrite !not_elem_of_cons. split_and!; try discriminate.
    apply not_elem_of_nil.
Qed.

End Batches.

(** ** The optional OCR of poemtok.py *)

Section OptionalOCR.
Import PIL.

Lemma image_based_overlay_returns (w : PoemTok.world) resolution
    (page_image : image rgba) :
  width page_image <> 0%nat -> height page_image <> 0%nat ->
  PoemTok.image_based_overlay w resolution page_image
  = Io [] (Ok (PoemTok.paste_page w resolution page_image)).
Proof.
  intros Hw Hh. unfold PoemTok.image_based_overlay, size.
  destruct (Nat.eqb_spec (width page_image) 0); [done |].
  destruct (Nat.eqb_spec (height page_image) 0); [done |]. reflexivity.
Qed.

(** The pages [extract_pdf_pages] hands to [create_text_overlay] are
    1000 wide and 1400 high, whatever was drawn into them. *)
Lemma extract_pdf_pages_size (w : PoemTok.world) (texts : list PoemTok.text)
    (page_image : image rgba) :
  page_image ∈ PoemTok.extract_pdf_pages w texts ->
  width page_image = 1000%nat /\ height page_image = 1400%nat.
Proof.
  unfold PoemTok.extract_pdf_pages.
  intros (text & -> & _)%list_elem_of_fmap. split; reflexivity.
Qed.

(** C9. pytesseract is optional.  Its import is tried once, when the
    module is loaded; an [ImportError] there only sets
    [HAS_PYTESSERACT] to false.  With the flag false
    [create_text_overlay] does not call the OCR at all, and with the
    flag true an exception of the OCR call is caught: in both cases the
    result is the image-based overlay of the page, returned and not
    raised.  A page image has a non-zero width and height: those of
    [extract_pdf_pages] are 1000 x 1400. *)
Theorem C9_ocr_optional (w : PoemTok.world) (resolution : nat * nat)
    (page_image : image rgba) :
  width page_image <> 0%nat -> height page_image <> 0%nat ->
  (PoemTok.import_pytesseract w = Raise ImportError ->
     PoemTok.HAS_PYTESSERACT w
     = Io [PoemTok.import_pytesseract_call] (Ok false)) /\
  (PoemTok.import_pytesseract w = Ok () ->
     PoemTok.HAS_PYTESSERACT w
     = Io [PoemTok.import_pytesseract_call] (Ok true)) /\
  PoemTok.create_text_overlay w resolution false page_image
    = PoemTok.image_based_overlay w resolution page_image /\
  PoemTok.create_text_overlay w resolution false page_image
    = Io [] (Ok (PoemTok.paste_page w resolution page_image)) /\
  (forall e, PoemTok.image_to_string w page_image = Raise e ->
     PoemTok.create_text_overlay w resolution true page_image
     = Io [PoemTok.image_to_string_call]
          (Ok (PoemTok.paste_page w resolution page_image))).
Proof.
  intros Hw Hh. split_and!.
  - intros Himp. unfold PoemTok.HAS_PYTESSERACT, call, try_except.
    by rewrite Himp.
  - intros Himp. unfold PoemTok.HAS_PYTESSERACT, call, try_except.
    by rewrite Himp.
  - unfold PoemTok.create_text_overlay, mbind, io_bind. simpl.
    by destruct (PoemTok.image_based_overlay _ _ _) as [t [o|e]].
  - unfold PoemTok.create_text_overlay, mbind, io_bind. simpl.
    by rewrite image_based_overlay_returns.
  - intros e Hocr.
    unfold PoemTok.create_text_overlay, call, try_except, mbind, io_bind.
    rewrite Hocr. simpl. by rewrite image_based_overlay_returns.
Qed.

Lemma C9_ocr_optional_witness :
  width Sample.page <> 0%nat /\ height Sample.page <> 0%nat /\
  (PoemTok.import_pytesseract Sample.poemtok_world = Raise ImportError ->
     PoemTok.HAS_PYTESSERACT Sample.poemtok_world
     = Io [PoemTok.import_pytesseract_call] (Ok false)) /\
  (PoemTok.import_pytesseract Sample.poemtok_world = Ok () ->
     PoemTok.HAS_PYTESSERACT Sample.poemtok_world
     = Io [PoemTok.import_pytesseract_call] (Ok true)) /\
  PoemTok.create_text_overlay Sample.poemtok_world (1080%nat, 1920%nat) false
      Sample.page
    = PoemTok.image_based_overlay Sample.poemtok_world (1080%nat, 1920%nat)
        Sample.page /\
  PoemTok.create_text_overlay Sample.poemtok_world (1080%nat, 1920%nat) false
      Sample.page
    = Io [] (Ok (PoemTok.paste_page Sample.poemtok_world (1080%nat, 1920%nat)
                   Sample.page)) /\
  (forall e, PoemTok.image_to_string Sample.poemtok_world Sample.page = Raise e ->
     PoemTok.create_text_overlay Sample.poemtok_world (1080%nat, 1920%nat) true
       Sample.page
     = Io [PoemTok.image_to_string_call]
          (Ok (PoemTok.paste_page Sample.poemtok_world (1080%nat, 1920%nat)
                 Sample.page))).
Proof.
  split; [simpl; lia |]. split; [simpl; lia |].
  apply (C9_ocr_optional Sample.poemtok_world (1080%nat, 1920%nat) Sample.page);
    simpl; lia.
Defined.

End OptionalOCR.

(** ** The models at work *)

Section Examples.
Import PIL.

(** The 3 x 2 sample under poemtok_final.py with its default opacity. *)
Example final_on_sample :
  Final.process_image Sample.grid Sample.opacity
  = Ok (Image 3 2 [(0, 0, 0, 204); (0, 0, 0, 204); (255, 255, 255, 255);
                   (255, 255, 255, 255); (0, 0, 0, 204); (0, 0, 0, 204)]).
Proof. vm_compute. reflexivity. Qed.

(** The same grid under poemtok_screenshot.py: 150 is a mid-tone. *)
Example screenshot_on_sample :
  Screenshot.process_image Sample.grid Sample.opacity
  = Ok (Image 3 2 [(0, 0, 0, 204); (255, 255, 255, 200); (255, 255, 255, 255);
                   (255, 255, 255, 255); (0, 0, 0, 204); (255, 255, 255, 150)]).
Proof. vm_compute. reflexivity. Qed.

(** [int(255 * bg_opacity)] at the ends of 0..1, just below 1, and at
    the defaults 0.8 and 0.7 of the scripts. *)
Example background_alpha_samples :
  background_alpha 0%float = Ok 0 /\
  background_alpha 1%float = Ok 255 /\
  background_alpha (PrimFloat.next_down 1%float) = Ok 254 /\
  background_alpha 0x1.999999999999ap-1%float = Ok 204 /\
  background_alpha 0x1.6666666666666p-1%float = Ok 178 /\
  background_alpha PrimFloat.nan = Raise ValueError.
Proof. vm_compute. repeat split. Qed.

(** A first ffmpeg call that exits with 0 but leaves a clip of 1/32 s
    sends poemtok_fixed.py through the alternative method; its second
    command fails, so the direct method makes the video. *)
Example chain_on_short_clip :
  Fixed.create_video_with_overlay
    (Fixed.World (Ok ())
       (fun c => match c with Fixed.ffmpeg_overlay_video => 1 | _ => 0 end)
       (Some 0x1p-5%float) (Ok ()))
    7
  = Io [Fixed.ffmpeg_overlay; Fixed.ffprobe_duration;
        Fixed.ffmpeg_image_video; Fixed.ffmpeg_overlay_video;
        Fixed.ffmpeg_direct]
       (Ok (Some 7)).
Proof. vm_compute. reflexivity. Qed.

(** When every command fails the chain ends with [None]. *)
Example chain_on_failures :
  Fixed.create_video_with_overlay
    (Fixed.World (Ok ()) (fun _ => 1) None (Ok ())) 7
  = Io [Fixed.ffmpeg_overlay; Fixed.ffmpeg_image_video; Fixed.ffmpeg_direct]
       (Ok None).
Proof. vm_compute. reflexivity. Qed.

(** An output path with no directory part: [os.makedirs] raises and no
    command is run. *)
Example chain_without_directory :
  Fixed.create_video_with_overlay
    (Fixed.World (Raise OtherError) (fun _ => 0) None (Ok ())) 7
  = Io [] (Raise OtherError).
Proof. vm_compute. reflexivity. Qed.

(** Three pages, ffmpeg failing on the second: poemtok_image.py still
    attempts the third and returns the first and the third video. *)
Example image_batch_on_failure :
  PoemTokImage.process Cases.image_world 1 None
  = Io [1; 2; 3] (Ok [1; 3]).
Proof. vm_compute. reflexivity. Qed.

(** With [--bg-opacity nan] the first image cannot be processed, and
    poemtok_image.py makes no video. *)
Example image_batch_on_nan :
  PoemTokImage.process
    (PoemTokImage.World 3 (fun _ => Sample.page) Cases.filters true
       PrimFloat.nan (fun _ => 0))
    1 None
  = Io [] (Raise ValueError).
Proof. vm_compute. reflexivity. Qed.

(** A start beyond the last page selects nothing and fails nothing. *)
Example page_range_beyond_end :
  PageRange.adjust 3 5 None = (5, 3) /\
  PoemTokImage.process Cases.image_world 5 None
  = Io [] (Ok []).
Proof. vm_compute. split; reflexivity. Qed.

End Examples.

(** ** Strings *)

Section Strings.
Import PyStr.

Lemma join_snoc (sep : str) (parts : list str) (last : str) :
  join sep (parts ++ [last]) =
  match parts with
  | [] => last
  | _ :: _ => join sep parts ++ sep ++ last
  end.
Proof.
  destruct parts as [| first others]; simpl; [by rewrite app_nil_r |].
  rewrite fmap_app, concat_app. simpl.
  by rewrite app_nil_r, <- !(assoc_L (++)).
Qed.

Lemma split_from_words isspace (s word : str) :
  Forall (fun c => isspace c = false) word ->
  Forall (fun w => w <> [] /\ Forall (fun c => isspace c = false) w)
    (split_from isspace s word).
Proof.
  revert word. induction s as [| c s IH]; intros word Hword; simpl.
  - case_bool_decide; by repeat constructor.
  - destruct (isspace c) eqn:Hc.
    + case_bool_decide; [by apply IH |].
      constructor; [done |]. by apply IH.
    + apply IH, Forall_app. by repeat constructor.
Qed.

(** The words of [s.split()] are not empty and hold no whitespace. *)
Lemma split_words isspace (s : str) :
  Forall (fun w => w <> [] /\ Forall (fun c => isspace c = false) w)
    (split isspace s).
Proof. by apply split_from_words. Qed.

Lemma split_nonempty isspace (s : str) : Forall (fun w => w <> []) (split isspace s).
Proof. eapply Forall_impl; [apply split_words |]. by intros w [].  Qed.

End Strings.

(** ** Line breaking *)

Section LineBreaking.
Import PyStr.

Lemma format_word_inv m (words : list str) state (word : str) :
  word <> [] ->
  Styled.format_inv m words state ->
  Styled.format_inv m (words ++ [word]) (Styled.format_word m state word).
Proof.
  intros Hword [[-> ->] | (Hcur & Hjoin & Hgood)].
  - right. unfold Styled.format_word.
    case_bool_decide; [| done]. rewrite andb_false_r. simpl.
    split_and!; [done | done |].
    apply Forall_singleton. split; [done |].
    right. by apply list_elem_of_singleton.
  - destruct state as [lines cur]. simpl in *.
    assert (Forall (fun line => line <> [] /\
              (len line <= m \/ line ∈ words ++ [word])) (lines ++ [cur]))
      as Hgood'.
    { eapply Forall_impl; [exact Hgood |]. intros l [? [?|?]]; split; auto.
      right. apply elem_of_app. by left. }
    assert (words <> []) as Hwords.
    { intros ->. rewrite join_snoc in Hjoin. destruct lines; [done |].
      by apply app_eq_nil in Hjoin as [_ [=]]. }
    right. unfold Styled.format_word.
    case_bool_decide; [done |]. simpl. rewrite andb_true_r.
    destruct (Z.gtb_spec (len cur + len word + 1) m) as [Hgt | Hle]; simpl.
    + split_and!; [done | |].
      * rewrite (join_snoc _ (lines ++ [cur]) word), (join_snoc _ words word).
        destruct (lines ++ [cur]) as [| l ls] eqn:E; [by destruct lines |].
        rewrite Hjoin. by destruct words.
      * apply Forall_app. split; [done |].
        apply Forall_singleton. split; [done |].
        right. apply elem_of_app. right. by apply list_elem_of_singleton.
    + split_and!.
      * by destruct cur.
      * rewrite (join_snoc _ words word), <- Hjoin.
        rewrite !(join_snoc _ lines).
        destruct words; [done |].
        destruct lines; simpl; by rewrite <- ?(assoc_L (++)).
      * apply Forall_app in Hgood' as [Hlines _].
        apply Forall_app. split; [done |]. apply Forall_singleton. split.
        -- by destruct cur.
        -- left. unfold len in *. rewrite !length_app. simpl. lia.
Qed.

Lemma format_loop_inv m (words : list str) :
  Forall (fun w => w <> []) words ->
  Styled.format_inv m words (foldl (Styled.format_word m) ([], []) words).
Proof.
  induction words as [| word words IH] using rev_ind; intros Hwords.
  - by left.
  - apply Forall_app in Hwords as [Hwords Hword].
    rewrite foldl_snoc. apply format_word_inv; [| by apply IH].
    by inversion Hword.
Qed.

(** X1. [_format_text] keeps the words and their order: its lines,
    put one after the other with a space between, read as the words of
    the text with a space between.  A text of whitespace only gives the
    empty string. *)
Theorem format_text_keeps_words (isspace : Z -> bool) (text : str) (m : Z) :
  join [32] (Styled.format_lines m (split isspace text))
    = join [32] (split isspace text) /\
  (split isspace text = [] -> Styled._format_text isspace text m = []).
Proof.
  pose proof (format_loop_inv m _ (split_nonempty isspace text)) as Hinv.
  unfold Styled._format_text, Styled.format_lines.
  destruct (foldl _ _ _) as [lines cur].
  destruct Hinv as [[-> [= -> ->]] | (Hcur & Hjoin & _)]; [done |].
  simpl in *. case_bool_decide; [done |]. simpl. split; [done |].
  intros Hnil. rewrite Hnil in Hjoin. rewrite join_snoc in Hjoin.
  destruct lines; [done |]. by apply app_eq_nil in Hjoin as [_ [=]].
Qed.

(** X2. No line of [_format_text] is empty, and a line is longer than
    [max_line_length] only when it is a single word of the text that is
    itself longer. *)
Theorem format_text_line_lengths (isspace : Z -> bool) (text : str) (m : Z) :
  Forall (fun line => line <> [] /\
            (len line <= m \/ (line ∈ split isspace text /\ m < len line)))
    (Styled.format_lines m (split isspace text)).
Proof.
  pose proof (format_loop_inv m _ (split_nonempty isspace text)) as Hinv.
  unfold Styled.format_lines.
  destruct (foldl _ _ _) as [lines cur].
  destruct Hinv as [[-> [= -> ->]] | (Hcur & _ & Hgood)]; [done |].
  simpl in *. case_bool_decide; [done |]. simpl.
  eapply Forall_impl; [exact Hgood |].
  intros line [Hne [Hle | Hin]]; split; auto.
  destruct (Z.le_gt_cases (len line) m); [by left | right; split; [done | lia]].
Qed.

Lemma add_word_inv (words : list str) state (word : str) :
  word <> [] ->
  Captions.caption_inv words state ->
  Captions.caption_inv (words ++ [word]) (Captions.add_word state word).
Proof.
  intros Hword [[-> ->] | (Hcur & body & Hlines & Hjoin & Hgood)].
  - right. unfold Captions.add_word. simpl.
    change (len []) with 0. rewrite Z.add_0_l.
    destruct (len word + 1 <=? 40) eqn:Hfit; simpl.
    + split; [done |]. exists [].
      split_and!; [done | done |]. apply Forall_singleton. split; [done |].
      right. by apply list_elem_of_singleton.
    + split; [done |]. exists []. split_and!; [done | done |].
      apply Forall_singleton. split; [done |].
      right. by apply list_elem_of_singleton.
  - destruct state as [lines cur]. simpl in *.
    assert (words <> []) as Hwords.
    { intros ->. rewrite join_snoc in Hjoin. destruct body; [done |].
      by apply app_eq_nil in Hjoin as [_ [=]]. }
    assert (Captions.first_word_long (words ++ [word])
            = Captions.first_word_long words) as Hfirst by by destruct words.
    assert (Forall (fun line => line <> [] /\
              (len line <= 40 \/ line ∈ words ++ [word])) (body ++ [cur]))
      as Hgood'.
    { eapply Forall_impl; [exact Hgood |]. intros l [? [?|?]]; split; auto.
      right. apply elem_of_app. by left. }
    right. unfold Captions.add_word. rewrite Hfirst.
    destruct (Z.leb_spec (len cur + len word + 1) 40) as [Hle | Hgt].
    + case_bool_decide; [done |]. simpl. split; [by destruct cur |].
      exists body. split_and!; [done | |].
      * rewrite (join_snoc _ words word), <- Hjoin.
        rewrite !(join_snoc _ body).
        destruct words; [done |].
        destruct body; simpl; by rewrite <- ?(assoc_L (++)).
      * apply Forall_app in Hgood' as [Hbody _].
        apply Forall_app. split; [done |]. apply Forall_singleton. split.
        -- by destruct cur.
        -- left. unfold len in *. rewrite !length_app. simpl. lia.
    + simpl. split; [done |]. exists (body ++ [cur]). split_and!.
      * by rewrite Hlines, <- (assoc_L (++)).
      * rewrite (join_snoc _ (body ++ [cur]) word), (join_snoc _ words word).
        destruct (body ++ [cur]) as [| l ls] eqn:E; [by destruct body |].
        rewrite Hjoin. by destruct words.
      * apply Forall_app. split; [done |].
        apply Forall_singleton. split; [done |].
        right. apply elem_of_app. right. by apply list_elem_of_singleton.
Qed.

Lemma caption_loop_inv (words : list str) :
  Forall (fun w => w <> []) words ->
  Captions.caption_inv words (foldl Captions.add_word ([], []) words).
Proof.
  induction words as [| word words IH] using rev_ind; intros Hwords.
  - by left.
  - apply Forall_app in Hwords as [Hwords Hword].
    rewrite foldl_snoc. apply add_word_inv; [| by apply IH].
    by inversion Hword.
Qed.

(** X3. The caption lines of [create_subtitle_file] start with an empty
    line exactly when the first word of the text has 40 characters or
    more (it fails the test against the empty current line, which is
    then appended); the lines after it are not empty, and put one after
    the other with a space between they read as the words of the
    text. *)
Theorem caption_lines_shape (isspace : Z -> bool) (text : str) :
  exists body,
    Captions.formatted_lines (split isspace text)
      = (if Captions.first_word_long (split isspace text) then [[]] else [])
        ++ body /\
    Forall (fun line => line <> []) body /\
    join [32] body = join [32] (split isspace text).
Proof.
  pose proof (caption_loop_inv _ (split_nonempty isspace text)) as Hinv.
  unfold Captions.formatted_lines.
  destruct (foldl _ _ _) as [lines cur].
  destruct Hinv as [[-> [= -> ->]] | (Hcur & body & Hlines & Hjoin & Hgood)].
  - by exists [].
  - simpl in *. case_bool_decide; [done |]. simpl.
    exists (body ++ [cur]). split_and!.
    + by rewrite Hlines, <- (assoc_L (++)).
    + eapply Forall_impl; [exact Hgood |]. by intros l [].
    + done.
Qed.

(** X4. A caption line has more than 40 characters only when it is a
    single word of the text. *)
Theorem caption_line_lengths (isspace : Z -> bool) (text : str) :
  Forall (fun line => len line <= 40 \/ line ∈ split isspace text)
    (Captions.formatted_lines (split isspace text)).
Proof.
  pose proof (caption_loop_inv _ (split_nonempty isspace text)) as Hinv.
  unfold Captions.formatted_lines.
  destruct (foldl _ _ _) as [lines cur].
  destruct Hinv as [[-> [= -> ->]] | (Hcur & body & Hlines & _ & Hgood)].
  - done.
  - simpl in *. case_bool_decide; [done |]. simpl.
    rewrite Hlines, <- (assoc_L (++)). apply Forall_app. split.
    + destruct (Captions.first_word_long _); [| done].
      apply Forall_singleton. left. done.
    + eapply Forall_impl; [exact Hgood |]. by intros l [].
Qed.

End LineBreaking.

(** ** poemtok_final.py and poemtok_styled_text.py, from image to video *)

Section ImageToVideo.
Import PIL.

(** The overlay [create_video] of poemtok_final.py hands to ffmpeg. *)
Lemma final_overlay (w : FinalCLI.world) :
  well_formed (FinalCLI.high_contrast w 2%float) ->
  FinalCLI.process_image w 0x1.999999999999ap-1%float 2%float
  = Ok (Spec.recolor (Spec.recolor_pixel 200 204)
          (FinalCLI.high_contrast w 2%float)).
Proof.
  intros Hwf. unfold FinalCLI.process_image.
  apply Final_refines; [done |]. vm_compute. reflexivity.
Qed.

(** [create_video] of poemtok_final.py once the directory is there. *)
Lemma final_create_video_eq (w : FinalCLI.world) (output_path d : Z)
    (s : float) :
  FinalCLI.makedirs w = Ok () ->
  well_formed (FinalCLI.high_contrast w 2%float) ->
  FinalCLI.create_video w output_path d s =
  let overlay :=
    Spec.recolor (Spec.recolor_pixel 200 204)
      (FinalCLI.high_contrast w 2%float) in
  if FinalCLI.returncode w (FinalCLI.ffmpeg overlay d s) =? 0 then
    Io [FinalCLI.ffmpeg overlay d s; FinalCLI.ffprobe]
       (Ok (if FinalCLI.returncode w FinalCLI.ffprobe =? 0
            then Some output_path else None))
  else
    Io [FinalCLI.ffmpeg overlay d s] (Ok None).
Proof.
  intros Hmakedirs Hwf. unfold FinalCLI.create_video.
  rewrite Hmakedirs, (final_overlay w Hwf).
  unfold mbind at 1, io_bind at 1. cbn [outcome trace app].
  unfold mbind at 1, io_bind at 1. simpl.
  unfold call, check_returncode, try_except, raise, mbind, io_bind, mret,
    io_ret. simpl.
  destruct (FinalCLI.returncode w (FinalCLI.ffmpeg _ d s) =? 0); simpl;
    [| reflexivity].
  destruct (FinalCLI.returncode w FinalCLI.ffprobe =? 0); simpl;
    [| reflexivity].
  destruct (FinalCLI.duration w); reflexivity.
Qed.

(** X5.  [create_video] of poemtok_final.py.  When [os.makedirs] raises
    (an output path with no directory part), the exception leaves the
    function and no command is run.  Otherwise the output path is
    returned exactly when ffmpeg and ffprobe both exit with 0.  ffmpeg
    runs once and nothing is retried; a failing ffprobe gives [None]
    although ffmpeg has written the video; the probed duration, a number
    or not, changes nothing. *)
Theorem final_create_video_result (w : FinalCLI.world) (output_path d : Z)
    (s : float) :
  well_formed (FinalCLI.high_contrast w 2%float) ->
  (forall e, FinalCLI.makedirs w = Raise e ->
     FinalCLI.create_video w output_path d s = Io [] (Raise e)) /\
  (FinalCLI.makedirs w = Ok () ->
   FinalCLI.create_video w output_path d s =
   let overlay :=
     Spec.recolor (Spec.recolor_pixel 200 204)
       (FinalCLI.high_contrast w 2%float) in
   if FinalCLI.returncode w (FinalCLI.ffmpeg overlay d s) =? 0 then
     Io [FinalCLI.ffmpeg overlay d s; FinalCLI.ffprobe]
        (Ok (if FinalCLI.returncode w FinalCLI.ffprobe =? 0
             then Some output_path else None))
   else
     Io [FinalCLI.ffmpeg overlay d s] (Ok None)).
Proof.
  intros Hwf. split.
  - intros e Hmakedirs. unfold FinalCLI.create_video. by rewrite Hmakedirs.
  - intros Hmakedirs. by apply final_create_video_eq.
Qed.

Lemma final_create_video_result_witness :
  well_formed (FinalCLI.high_contrast Cases.final_world 2%float) /\
  (FinalCLI.makedirs Cases.final_world = Ok () ->
   FinalCLI.create_video Cases.final_world 7 5 0x1.6666666666666p-1%float
   = Io [FinalCLI.ffmpeg
           (Spec.recolor (Spec.recolor_pixel 200 204) Sample.grid) 5
           0x1.6666666666666p-1%float;
         FinalCLI.ffprobe]
        (Ok None)).
Proof.
  split; [reflexivity |].
  apply (final_create_video_result Cases.final_world 7 5
           0x1.6666666666666p-1%float).
  reflexivity.
Defined.

(** X6.  [main] of poemtok_final.py parses [--bg-opacity] and [--contrast]
    but passes neither on: whatever their values, the image handed to
    ffmpeg is the recolor, with background alpha 204 = int(255 * 0.8),
    of the image enhanced with contrast 2.0. *)
Theorem final_main_ignores_opacity (w : FinalCLI.world) (a : FinalCLI.args)
    (image : image rgba) (d : Z) (s : float) :
  well_formed (FinalCLI.high_contrast w 2%float) ->
  FinalCLI.ffmpeg image d s ∈ trace (FinalCLI.main w a) ->
  image = Spec.recolor (Spec.recolor_pixel 200 204)
            (FinalCLI.high_contrast w 2%float) /\
  d = FinalCLI.args_duration a /\ s = FinalCLI.scale a.
Proof.
  intros Hwf. unfold FinalCLI.main.
  destruct (FinalCLI.makedirs w) as [[] | e] eqn:Hmakedirs.
  - rewrite (final_create_video_eq w _ _ _ Hmakedirs Hwf).
    unfold mbind, io_bind. simpl.
    destruct (FinalCLI.returncode w _ =? 0); simpl;
      rewrite ?elem_of_cons, elem_of_nil; intros H;
      destruct_or!; try done; by injection H as -> -> ->.
  - unfold FinalCLI.create_video. rewrite Hmakedirs.
    unfold mbind, io_bind. simpl. by intros ?%elem_of_nil.
Qed.

Lemma final_main_ignores_opacity_witness :
  well_formed (FinalCLI.high_contrast Cases.final_world 2%float) /\
  FinalCLI.ffmpeg (Spec.recolor (Spec.recolor_pixel 200 204) Sample.grid) 5
    0x1.6666666666666p-1%float
    ∈ trace (FinalCLI.main Cases.final_world Cases.final_args) /\
  Spec.recolor (Spec.recolor_pixel 200 204) Sample.grid
  = Spec.recolor (Spec.recolor_pixel 200 204)
      (FinalCLI.high_contrast Cases.final_world 2%float) /\
  5 = FinalCLI.args_duration Cases.final_args /\
  0x1.6666666666666p-1%float = FinalCLI.scale Cases.final_args.
Proof.
  assert (FinalCLI.ffmpeg
            (Spec.recolor (Spec.recolor_pixel 200 204) Sample.grid) 5
            0x1.6666666666666p-1%float
            ∈ trace (FinalCLI.main Cases.final_world Cases.final_args))
    as Hcall by (vm_compute; constructor).
  split; [reflexivity |]. split; [exact Hcall |].
  apply (final_main_ignores_opacity Cases.final_world Cases.final_args);
    [reflexivity | exact Hcall].
Defined.

Lemma styled_direct_eq (w : StyledTextCLI.world) (out : Z) :
  StyledTextCLI.create_video_direct w out
  = Io [StyledTextCLI.ffmpeg_direct]
       (Ok (if StyledTextCLI.returncode w StyledTextCLI.ffmpeg_direct =? 0
            then Some out else None)).
Proof.
  unfold StyledTextCLI.create_video_direct, StyledTextCLI.run, call,
    check_returncode, try_except.
  destruct (StyledTextCLI.returncode w _ =? 0); reflexivity.
Qed.

(** X7.  [create_video_with_styled_text] has two levels.  When
    [os.makedirs] raises, or the recolor does (an opacity that [int]
    cannot convert), the exception leaves the function and no command
    is run.  Otherwise the first level succeeds when ffmpeg and ffprobe
    exit with 0 and the duration is a number: any number, a zero-length
    clip included.  If it does not succeed the direct command runs,
    once; the result is [None] exactly when both levels fail. *)
Theorem styled_text_chain (w : StyledTextCLI.world) (output_path : Z)
    (bg_opacity contrast : float) (threshold : Z) :
  well_formed (StyledTextCLI.high_contrast w contrast) ->
  (forall A,
     StyledTextCLI.makedirs w = Ok () ->
     background_alpha bg_opacity = Ok A ->
     0 <= A <= 255 ->
     StyledTextCLI.create_video_with_styled_text w output_path bg_opacity
       contrast threshold
     = if StyledTextCLI.primary_succeeds w then
         Io [StyledTextCLI.ffmpeg_styled; StyledTextCLI.ffprobe]
            (Ok (Some output_path))
       else
         Io ((if StyledTextCLI.returncode w StyledTextCLI.ffmpeg_styled =? 0
              then [StyledTextCLI.ffmpeg_styled; StyledTextCLI.ffprobe]
              else [StyledTextCLI.ffmpeg_styled])
             ++ [StyledTextCLI.ffmpeg_direct])
            (Ok (if StyledTextCLI.returncode w StyledTextCLI.ffmpeg_direct =? 0
                 then Some output_path else None))) /\
  (forall e,
     StyledTextCLI.makedirs w = Ok () ->
     background_alpha bg_opacity = Raise e ->
     StyledTextCLI.create_video_with_styled_text w output_path bg_opacity
       contrast threshold = Io [] (Raise e)) /\
  (forall e,
     StyledTextCLI.makedirs w = Raise e ->
     StyledTextCLI.create_video_with_styled_text w output_path bg_opacity
       contrast threshold = Io [] (Raise e)).
Proof.
  intros Hwf. split_and!.
  - intros A Hmakedirs HA _.
    unfold StyledTextCLI.create_video_with_styled_text.
    rewrite Hmakedirs, (StyledText_refines _ _ threshold A Hwf HA).
    unfold mbind at 1, io_bind at 1. cbn [outcome trace app].
    unfold mbind at 1, io_bind at 1. simpl.
    rewrite styled_direct_eq.
    unfold StyledTextCLI.primary_succeeds, StyledTextCLI.run, call,
      check_returncode, try_except, raise, mbind, io_bind, mret, io_ret.
    simpl.
    destruct (StyledTextCLI.returncode w StyledTextCLI.ffmpeg_styled =? 0);
      simpl; [| reflexivity].
    destruct (StyledTextCLI.returncode w StyledTextCLI.ffprobe =? 0);
      simpl; [| reflexivity].
    destruct (StyledTextCLI.duration w); reflexivity.
  - intros e Hmakedirs He.
    unfold StyledTextCLI.create_video_with_styled_text,
      StyledText.process_image_to_white_text.
    unfold background_alpha in He. rewrite Hmakedirs, He. reflexivity.
  - intros e Hmakedirs.
    unfold StyledTextCLI.create_video_with_styled_text.
    by rewrite Hmakedirs.
Qed.

Lemma styled_text_chain_witness :
  well_formed (StyledTextCLI.high_contrast Cases.styled_world 2%float) /\
  (forall A,
     StyledTextCLI.makedirs Cases.styled_world = Ok () ->
     background_alpha Sample.opacity = Ok A ->
     0 <= A <= 255 ->
     StyledTextCLI.create_video_with_styled_text Cases.styled_world 7
       Sample.opacity 2%float 200
     = if StyledTextCLI.primary_succeeds Cases.styled_world then
         Io [StyledTextCLI.ffmpeg_styled; StyledTextCLI.ffprobe]
            (Ok (Some 7))
       else
         Io ((if StyledTextCLI.returncode Cases.styled_world
                   StyledTextCLI.ffmpeg_styled =? 0
              then [StyledTextCLI.ffmpeg_styled; StyledTextCLI.ffprobe]
              else [StyledTextCLI.ffmpeg_styled])
             ++ [StyledTextCLI.ffmpeg_direct])
            (Ok (if StyledTextCLI.returncode Cases.styled_world
                      StyledTextCLI.ffmpeg_direct =? 0
                 then Some 7 else None))).
Proof.
  split; [reflexivity |].
  apply (styled_text_chain Cases.styled_world 7 Sample.opacity 2%float 200).
  reflexivity.
Defined.

End ImageToVideo.
(** ** poemtok.py: the overlay from OCR, and a run without failures *)

Section PoemTokRuns.
Import PIL PyList.

Lemma blank_text (w : PoemTok.world) (text : PoemTok.text) :
  negb (bool_decide (text = [])) && (0 <? length (PoemTok.strip w text))%nat
  = negb (bool_decide (PoemTok.strip w text = [])).
Proof.
  destruct text as [| c text]; [reflexivity |].
  rewrite (bool_decide_eq_false_2 (c :: text = [])) by done. simpl negb.
  rewrite andb_true_l.
  destruct (PoemTok.strip w (c :: text)) as [| c' s]; [reflexivity |].
  by rewrite (bool_decide_eq_false_2 (c' :: s = [])) by done.
Qed.

(** X8.  Method 1 of [create_text_overlay], pytesseract present and the OCR
    returning [text].  Text that is empty or whitespace only is not
    styled: the result is that of the image-based overlay, as it is
    when the styler raises.  Otherwise the overlay of the styler is
    returned and the page image is not looked at again, so that even a
    page of width 0 gives an overlay. *)
Theorem text_overlay_from_ocr (w : PoemTok.world) (resolution : nat * nat)
    (page_image : image rgba) (text : PoemTok.text) :
  PoemTok.image_to_string w page_image = Ok text ->
  (PoemTok.strip w text = [] ->
     PoemTok.create_text_overlay w resolution true page_image
     = Io [PoemTok.image_to_string_call]
          (outcome (PoemTok.image_based_overlay w resolution page_image))) /\
  (PoemTok.strip w text <> [] ->
     forall overlay, PoemTok.create_minimalist_overlay w text = Ok overlay ->
     PoemTok.create_text_overlay w resolution true page_image
     = Io [PoemTok.image_to_string_call;
           PoemTok.create_minimalist_overlay_call] (Ok overlay)) /\
  (PoemTok.strip w text <> [] ->
     forall e, PoemTok.create_minimalist_overlay w text = Raise e ->
     PoemTok.create_text_overlay w resolution true page_image
     = Io [PoemTok.image_to_string_call;
           PoemTok.create_minimalist_overlay_call]
          (outcome (PoemTok.image_based_overlay w resolution page_image))).
Proof.
  intros Hocr.
  assert (trace (PoemTok.image_based_overlay w resolution page_image) = [])
    as Hquiet.
  { unfold PoemTok.image_based_overlay, size. by destruct (_ || _). }
  unfold PoemTok.create_text_overlay, call, try_except, mbind, io_bind.
  simpl. rewrite Hocr. simpl. rewrite blank_text.
  split_and!.
  - intros ->. simpl.
    destruct (PoemTok.image_based_overlay _ _ _) as [t [o | e]];
      simpl in *; by subst.
  - intros Hne overlay Hstyled.
    rewrite (bool_decide_eq_false_2 _ Hne). simpl. by rewrite Hstyled.
  - intros Hne e Hstyled.
    rewrite (bool_decide_eq_false_2 _ Hne). simpl. rewrite Hstyled. simpl.
    destruct (PoemTok.image_based_overlay _ _ _) as [t [o | e']];
      simpl in *; by subst.
Qed.

Lemma text_overlay_from_ocr_witness :
  PoemTok.image_to_string Cases.ocr_world Sample.page = Ok [72; 105] /\
  (PoemTok.strip Cases.ocr_world [72; 105] <> [] ->
   forall overlay,
     PoemTok.create_minimalist_overlay Cases.ocr_world [72; 105] = Ok overlay ->
     PoemTok.create_text_overlay Cases.ocr_world (1080%nat, 1920%nat) true
       Sample.page
     = Io [PoemTok.image_to_string_call;
           PoemTok.create_minimalist_overlay_call] (Ok overlay)).
Proof.
  split; [reflexivity |].
  apply (text_overlay_from_ocr Cases.ocr_world (1080%nat, 1920%nat)
           Sample.page [72; 105]).
  reflexivity.
Defined.

Lemma create_video_outcome (w : PoemTok.world) resolution has i page v :
  outcome (PoemTok.create_video w resolution has i page) = Ok v -> v = i + 1.
Proof.
  unfold PoemTok.create_video, mbind, io_bind, call. simpl.
  destruct (outcome (PoemTok.create_text_overlay _ _ _ _)); simpl; [| done].
  destruct (PoemTok.write_videofile w i); simpl; [| done]. by intros [= <-].
Qed.

(** A loop whose every round returns, appending one value. *)
Lemma for_each_io_appends {E A B} (body : A -> list B -> io E (list B))
    (f : A -> B) (l : list A) : forall acc,
  (forall x acc, x ∈ l -> outcome (body x acc) = Ok (acc ++ [f x])) ->
  outcome (for_each_io body l acc) = Ok (acc ++ (f <$> l)).
Proof.
  induction l as [| x l IH]; intros acc Hok; simpl.
  - by rewrite app_nil_r.
  - unfold mbind, io_bind. rewrite Hok by by left. simpl.
    rewrite IH; [by rewrite <- (assoc_L (++)) |].
    intros y acc' Hy. apply Hok. by right.
Qed.

(** X9.  When the background video is prepared (which needs a
    resolution whose height is not 0) and no page raises, [process] of
    poemtok.py returns one video per page of the adjusted range, in
    order, each named by its 1-based page number: from
    [max(1, start_page)] to the adjusted end. *)
Theorem poemtok_process_names (w : PoemTok.world) (resolution : nat * nat)
    (has_pytesseract : bool) (b : PoemTok.background)
    (pages : list (image rgba)) (start_page : Z) (end_page : option Z) :
  resolution.2 <> 0%nat ->
  PoemTok.video_file_clip b = Ok () ->
  PoemTok.crop_and_resize b = Ok () ->
  (forall i page, index pages i = Ok page ->
     PoemTok.copy b i = Ok () /\
     exists v, outcome (PoemTok.create_video w resolution has_pytesseract
                          i page) = Ok v) ->
  outcome (PoemTok.process w resolution has_pytesseract b pages start_page
             end_page)
  = Ok (range
          (PageRange.adjust (Z.of_nat (length pages)) start_page end_page).1
          ((PageRange.adjust (Z.of_nat (length pages)) start_page
              end_page).2 + 1)).
Proof.
  intros Hheight Hclip Hcrop Hok. unfold PoemTok.process.
  pose proof (Hbounds := fun i => proj1 (elem_of_range
     ((PageRange.adjust (Z.of_nat (length pages)) start_page end_page).1 - 1)
     (PageRange.adjust (Z.of_nat (length pages)) start_page end_page).2 i)).
  assert (1 <= (PageRange.adjust (Z.of_nat (length pages)) start_page
                  end_page).1 /\
          (PageRange.adjust (Z.of_nat (length pages)) start_page end_page).2
            <= Z.of_nat (length pages)) as [Hlo Hhi].
  { unfold PageRange.adjust. simpl. split; [lia |].
    destruct end_page as [e |]; [| lia]. rewrite gtb_decide.
    case_bool_decide; lia. }
  destruct (PageRange.adjust _ _ _) as [s e]. simpl in *.
  assert (PoemTok.prepare_background_video resolution b = Io [] (Ok ()))
    as ->.
  { unfold PoemTok.prepare_background_video. rewrite Hclip, Hcrop.
    unfold mbind, io_bind. cbn [outcome trace app].
    by rewrite (proj2 (Nat.eqb_neq _ _) Hheight). }
  unfold mbind at 1, io_bind at 1. cbn [outcome trace app].
  rewrite (for_each_io_appends _ (fun i => i + 1)); [by rewrite range_shift |].
  intros i acc Hi%Hbounds.
  destruct (index_in_range pages i) as [page Hpage]; [lia |].
  destruct (Hok i page Hpage) as [Hcopy [v Hv]].
  pose proof (create_video_outcome _ _ _ _ _ _ Hv) as ->.
  unfold PoemTok.add_page, mbind, io_bind. rewrite Hpage, Hcopy. simpl.
  unfold mbind, io_bind in Hv. by rewrite Hv.
Qed.

Lemma poemtok_process_names_witness :
  (1080%nat, 1920%nat).2 <> 0%nat /\
  PoemTok.video_file_clip Cases.background = Ok () /\
  PoemTok.crop_and_resize Cases.background = Ok () /\
  (forall i page, index [Sample.page; Sample.page; Sample.page] i = Ok page ->
     PoemTok.copy Cases.background i = Ok () /\
     exists v, outcome (PoemTok.create_video Cases.ocr_world
                          (1080%nat, 1920%nat) true i page) = Ok v) /\
  outcome (PoemTok.process Cases.ocr_world (1080%nat, 1920%nat) true
             Cases.background [Sample.page; Sample.page; Sample.page] (-4)
             (Some 2))
  = Ok [1; 2].
Proof.
  assert (forall i page,
            index [Sample.page; Sample.page; Sample.page] i = Ok page ->
            PoemTok.copy Cases.background i = Ok () /\
            exists v, outcome (PoemTok.create_video Cases.ocr_world
                                 (1080%nat, 1920%nat) true i page) = Ok v)
    as Hpages by (intros i page _; split; [| eexists]; reflexivity).
  split; [simpl; lia |]. split; [reflexivity |]. split; [reflexivity |].
  split; [exact Hpages |].
  apply (poemtok_process_names Cases.ocr_world (1080%nat, 1920%nat) true
           Cases.background [Sample.page; Sample.page; Sample.page] (-4)
           (Some 2));
    [simpl; lia | reflexivity | reflexivity | exact Hpages].
Defined.

End PoemTokRuns.

(** ** poemtok_image.py: how the videos are named *)

Section ImageNames.
Import PyList.

Lemma enumerate_range (a b : Z) :
  enumerate (range a b) = (fun page => (page - a, page)) <$> range a b.
Proof.
  apply list_eq. intros i. unfold enumerate, range.
  rewrite list_lookup_imap, !list_lookup_fmap.
  destruct (seq 0 (Z.to_nat (b - a)) !! i) as [k |] eqn:E; simpl; [| done].
  apply lookup_seq in E as [-> _]. simpl. do 2 f_equal. lia.
Qed.

Lemma omap_video_of (w : PoemTokImage.world) (start_page a : Z) (l : list Z) :
  omap (PoemTokImage.video_of w start_page) ((fun page => (page - a, page)) <$> l)
  = (fun page => page + (start_page - a))
    <$> filter (fun page => PoemTokImage.returncode w page = 0) l.
Proof.
  induction l as [| page l IH]; [done |].
  rewrite filter_cons. csimpl. rewrite IH.
  unfold PoemTokImage.video_of. cbn [fst snd].
  destruct (Z.eqb_spec (PoemTokImage.returncode w page) 0).
  - rewrite decide_True by done. csimpl. f_equal. lia.
  - by rewrite decide_False by done.
Qed.

(** X10.  With an opacity that gives an 8-bit alpha, the videos
    [process] of poemtok_image.py returns are those of the pages on
    which ffmpeg exited with 0, and a video is named by
    [i + start_page] with the [start_page] of the call, not the
    adjusted one.  For [start_page >= 1] that is the number of the page
    the video shows; for [start_page < 1] every name is the page number
    plus [start_page - 1], so page 1 is named by [start_page]. *)
Theorem image_video_names (w : PoemTokImage.world) (A : Z) (start_page : Z)
    (end_page : option Z) :
  background_alpha (PoemTokImage.bg_opacity w) = Ok A ->
  0 <= A <= 255 ->
  (forall page,
     page ∈ PoemTokImage.convert_pdf_to_images w start_page end_page ->
     PIL.well_formed
       (PoemTokImage.smoothed (PoemTokImage.pillow w) (PoemTokImage.invert w)
          (PoemTokImage.page_image w page))) ->
  outcome (PoemTokImage.process w start_page end_page)
  = Ok ((fun page => page + (start_page - Z.max 1 start_page))
        <$> filter (fun page => PoemTokImage.returncode w page = 0)
              (PoemTokImage.convert_pdf_to_images w start_page end_page)) /\
  (1 <= start_page ->
   outcome (PoemTokImage.process w start_page end_page)
   = Ok (filter (fun page => PoemTokImage.returncode w page = 0)
           (PoemTokImage.convert_pdf_to_images w start_page end_page))).
Proof.
  intros HA _ Hwf.
  assert (outcome (PoemTokImage.process w start_page end_page)
          = Ok ((fun page => page + (start_page - Z.max 1 start_page))
                <$> filter (fun page => PoemTokImage.returncode w page = 0)
                      (PoemTokImage.convert_pdf_to_images w start_page
                         end_page))) as Heq.
  { unfold PoemTokImage.process.
    rewrite (stage_returns w _) by
      (intros page Hpage; eexists;
       apply (process_image_file_returns w A page); [by apply Hwf | done]).
    rewrite app_nil_l.
    unfold mbind, io_bind. cbn [outcome trace app].
    rewrite image_loop_eq. cbn [outcome app].
    rewrite convert_pdf_to_images_eq, enumerate_range, omap_video_of.
    reflexivity. }
  split; [exact Heq |].
  intros Hstart. rewrite Heq. f_equal.
  rewrite <- (list_fmap_id (filter _ _)) at 2.
  apply list_fmap_ext. intros _ page _. simpl. lia.
Qed.

Lemma image_video_names_witness :
  background_alpha (PoemTokImage.bg_opacity Cases.image_world) = Ok 178 /\
  0 <= 178 <= 255 /\
  (forall page,
     page ∈ PoemTokImage.convert_pdf_to_images Cases.image_world (-1) None ->
     PIL.well_formed
       (PoemTokImage.smoothed (PoemTokImage.pillow Cases.image_world)
          (PoemTokImage.invert Cases.image_world)
          (PoemTokImage.page_image Cases.image_world page))) /\
  outcome (PoemTokImage.process Cases.image_world (-1) None)
  = Ok ((fun page => page + (-1 - Z.max 1 (-1)))
        <$> filter (fun page => PoemTokImage.returncode Cases.image_world page
                                = 0)
              (PoemTokImage.convert_pdf_to_images Cases.image_world (-1)
                 None)).
Proof.
  assert (background_alpha (PoemTokImage.bg_opacity Cases.image_world)
          = Ok 178) as HA by (vm_compute; reflexivity).
  assert (forall page,
            page ∈ PoemTokImage.convert_pdf_to_images Cases.image_world (-1)
                     None ->
            PIL.well_formed
              (PoemTokImage.smoothed (PoemTokImage.pillow Cases.image_world)
                 (PoemTokImage.invert Cases.image_world)
                 (PoemTokImage.page_image Cases.image_world page)))
    as Hpages by (intros page _; reflexivity).
  split; [exact HA |]. split; [lia |]. split; [exact Hpages |].
  apply (image_video_names Cases.image_world 178 (-1) None HA);
    [lia | exact Hpages].
Defined.

End ImageNames.
(** ** text_styler.py and the command line of poemtok.py *)

Section Styling.
Import PyStr TextStyler.

(** X11.  [--minimalist] changes nothing.  [create_text_overlay] always goes
    through [create_minimalist_overlay], whose defaults are the three
    entries the flag adds to the style, so the overlay is the same with
    and without the flag. *)
Theorem minimalist_flag_no_effect (w : world) (resolution : Z * Z)
    (text : str) (font_size : Z) (font : option string) :
  create_minimalist_overlay w resolution text
    (PoemTokCLI.main_style font_size font true)
  = create_minimalist_overlay w resolution text
      (PoemTokCLI.main_style font_size font false).
Proof.
  unfold create_minimalist_overlay. f_equal.
  unfold PoemTokCLI.main_style.
  destruct font as [path |]; [case_bool_decide |];
    unfold updated_style;
    rewrite !bool_decide_eq_false_2
      by (intros Hempty;
          apply (f_equal (fun m => m !! "font_size"%string)) in Hempty;
          by vm_compute in Hempty);
    apply map_eq; intros k; rewrite !lookup_union.
  all: unfold minimalist_style.
  all: repeat (rewrite lookup_insert; case_decide; simplify_eq; simpl).
  all: rewrite ?lookup_empty; try done.
Qed.

Lemma foldl_max_bound (l : list Z) : forall first,
  first <= foldl Z.max first l /\ Forall (fun z => z <= foldl Z.max first l) l.
Proof.
  induction l as [| z l IH]; intros first; simpl; [split; [lia | done] |].
  destruct (IH (Z.max first z)) as [Hfirst Hrest]. split; [lia |].
  constructor; [lia | done].
Qed.

Lemma py_max_bound (l : list Z) (m : Z) :
  py_max l = Ok m -> Forall (fun z => z <= m) l.
Proof.
  destruct l as [| first others]; [done |]. intros [= <-].
  destruct (foldl_max_bound others first). by constructor.
Qed.

Lemma foldl_add (l : list Z) : forall a, foldl Z.add a l = a + py_sum l.
Proof.
  unfold py_sum. induction l as [| z l IH]; intros a; simpl; [lia |].
  rewrite (IH (a + z)), (IH (0 + z)). lia.
Qed.

Lemma py_sum_cons (z : Z) (l : list Z) : py_sum (z :: l) = z + py_sum l.
Proof. unfold py_sum at 1. simpl. by rewrite foldl_add. Qed.

Lemma split_on_from_not_nil (sep : Z) (s piece : str) :
  split_on_from sep s piece <> [].
Proof.
  revert piece. induction s as [| c s IH]; intros piece; simpl; [done |].
  case_bool_decide; [done | apply IH].
Qed.

(** The loop that draws the lines: every line lands between the padded
    sides of the box, at or below the height the loop started from and
    above the height it ends at. *)
Lemma draw_lines_inside (size : str -> Z * Z) (alignment : value)
    (bg_x text_width padding : Z) (lines : list str) : forall y calls,
  Forall (fun line => (size line).1 <= text_width /\ 0 <= (size line).2)
    lines ->
  exists new,
    foldl (draw_line alignment bg_x (text_width + padding * 2) padding)
      (y, calls) (zip lines (size <$> lines))
    = (y + py_sum (snd <$> (size <$> lines)), calls ++ new) /\
    length new = length lines /\
    Forall (fun '(line_x, line_y, line) =>
              bg_x + padding <= line_x /\
              line_x + (size line).1
                <= bg_x + (text_width + padding * 2) - padding /\
              y <= line_y /\
              line_y + (size line).2
                <= y + py_sum (snd <$> (size <$> lines)))
      new.
Proof.
  induction lines as [| line lines IH]; intros y calls Hsizes.
  - exists []. simpl. unfold py_sum. simpl.
    rewrite app_nil_r, Z.add_0_r. done.
  - apply Forall_cons in Hsizes as [[Hw Hh] Hsizes].
    destruct (size line) as [lw lh] eqn:Hsize. simpl in Hw, Hh.
    csimpl. rewrite Hsize. simpl.
    edestruct (IH (y + lh)) as (new & -> & Hlen & Hnew); [done |].
    eexists (_ :: new). split_and!.
    + f_equal; [| by rewrite <- (assoc_L (++))].
      rewrite py_sum_cons. lia.
    + simpl. by rewrite Hlen.
    + assert (0 <= py_sum (snd <$> (size <$> lines))) as Hsum.
      { clear -Hsizes.
        induction Hsizes as [| l ls [_ Hl] _ IHl]; [done |].
        csimpl. rewrite py_sum_cons. lia. }
      rewrite py_sum_cons. constructor.
      * rewrite Hsize. simpl.
        repeat case_bool_decide;
          split_and!; try lia;
          pose proof (Z.div_le_lower_bound
                        (text_width + padding * 2 - lw) 2 padding);
          pose proof (Z.div_le_upper_bound
                        (text_width + padding * 2 - lw) 2
                        (text_width - lw + padding));
          lia.
      * eapply Forall_impl; [exact Hnew |].
        intros [[x yy] l]. lia.
Qed.

(** X12.  The text stays inside its box.  For a style whose padding is an
    int, [create_styled_overlay] returns (the text has at least one
    line, so [max] has something to take), it draws one line of text
    per line of the stripped text, and every line lies within the
    rectangle drawn behind it, [padding] away from each side, whatever
    the alignment and the position. *)
Theorem styled_text_inside_box (w : world) (resolution : Z * Z) (text : str)
    (style : gmap string value) (padding : Z) :
  (forall line, 0 <= (line_size w style line).2) ->
  get style "padding" (Int 40) = Int padding ->
  exists box,
    create_styled_overlay w resolution text style = Ok box /\
    length (drawn box)
      = length (split_on 10 (strip (isspace w) text)) /\
    drawn box <> [] /\
    Forall (fun '(line_x, line_y, line) =>
              (rectangle box).1.1.1 + padding <= line_x /\
              line_x + (line_size w style line).1
                <= (rectangle box).1.2 - padding /\
              (rectangle box).1.1.2 + padding <= line_y /\
              line_y + (line_size w style line).2
                <= (rectangle box).2 - padding)
      (drawn box).
Proof.
  intros Hheights Hpadding. unfold create_styled_overlay.
  change (textsize w _ (get style "font_size" (Int 36)))
    with (line_size w style).
  rewrite Hpadding.
  set (lines := split_on 10 (strip (isspace w) text)).
  assert (lines <> []) as Hlines by apply split_on_from_not_nil.
  destruct (py_max (fst <$> (line_size w style <$> lines)))
    as [text_width | e] eqn:Hmax.
  2: { destruct lines; done. }
  simpl.
  set (pos_y := if bool_decide (get style "position" (Str "center") = Str "top")
                then _ else _).
  edestruct (draw_lines_inside (line_size w style)
               (get style "alignment" (Str "center"))
               ((resolution.1 - (text_width + padding * 2)) / 2)
               text_width padding lines pos_y [])
    as (new & Hloop & Hlen & Hnew).
  { apply Forall_forall. intros line Hline. split; [| done].
    apply py_max_bound in Hmax. rewrite Forall_forall in Hmax.
    apply Hmax. apply (list_elem_of_fmap_2 fst (line_size w style <$> lines)).
    set_solver. }
  rewrite Hloop. simpl. eexists. split; [reflexivity |]. simpl.
  split_and!; [done | by destruct new, lines |].
  eapply Forall_impl; [exact Hnew |]. intros [[x y] line]. lia.
Qed.

Lemma styled_text_inside_box_witness :
  (forall line, 0 <= (line_size Cases.styler_world ∅ line).2) /\
  get (∅ : gmap string value) "padding" (Int 40) = Int 40 /\
  exists box,
    create_styled_overlay Cases.styler_world (1080, 1920) Cases.two_lines ∅
      = Ok box /\
    length (drawn box)
      = length (split_on 10 (strip (isspace Cases.styler_world)
                               Cases.two_lines)) /\
    drawn box <> [] /\
    Forall (fun '(line_x, line_y, line) =>
              (rectangle box).1.1.1 + 40 <= line_x /\
              line_x + (line_size Cases.styler_world ∅ line).1
                <= (rectangle box).1.2 - 40 /\
              (rectangle box).1.1.2 + 40 <= line_y /\
              line_y + (line_size Cases.styler_world ∅ line).2
                <= (rectangle box).2 - 40)
      (drawn box).
Proof.
  split; [intros line; simpl; lia |]. split; [reflexivity |].
  apply (styled_text_inside_box Cases.styler_world (1080, 1920)
           Cases.two_lines ∅ 40); [intros line; simpl; lia | reflexivity].
Defined.

Lemma split_on_from_no_sep (sep : Z) (s : str) : forall piece,
  sep ∉ s -> split_on_from sep s piece = [piece ++ s].
Proof.
  induction s as [| c s IH]; intros piece Hsep; simpl.
  - by rewrite app_nil_r.
  - apply not_elem_of_cons in Hsep as [Hc Hs].
    rewrite bool_decide_eq_false_2 by done.
    by rewrite IH, <- (assoc_L (++)).
Qed.

Lemma split_on_from_length (sep : Z) (s : str) : forall piece,
  length (split_on_from sep s piece)
  = Datatypes.S (length (filter (fun c => c = sep) s)).
Proof.
  unfold str in *. induction s as [| c s IH]; intros piece; [done |].
  rewrite filter_cons. cbn [split_on_from]. case_bool_decide.
  - rewrite decide_True by done. cbn [length]. by rewrite IH.
  - rewrite decide_False by done. by rewrite IH.
Qed.

(** X13.  The parse of [--resolution] in [main] never raises: what
    [int] or the unpacking raises ends in the bare [except].  A value
    with no [x] or with more than one gives 1080 x 1920, and so does a
    value with one [x] when a side is not an integer; a value of two
    integers around one [x] is taken as it is, whatever the integers
    (a zero or a negative side is not turned away). *)
Theorem resolution_fallback (int : str -> result Z) (first second : str)
    (resolution : str) :
  (exists size, PoemTokCLI.parse_resolution int resolution = Ok size) /\
  (length (filter (fun c => c = 120) resolution) <> 1%nat ->
     PoemTokCLI.parse_resolution int resolution = Ok (1080, 1920)) /\
  (120 ∉ first -> 120 ∉ second ->
     PoemTokCLI.parse_resolution int (first ++ [120] ++ second)
     = Ok match int first, int second with
          | Ok width, Ok height => (width, height)
          | _, _ => (1080, 1920)
          end).
Proof.
  split_and!.
  - unfold PoemTokCLI.parse_resolution, PoemTokCLI.try_bare.
    destruct (match split_on 120 resolution with [] => _ | _ => _ end);
      eauto.
  - intros Hcount. unfold PoemTokCLI.parse_resolution, split_on.
    pose proof (split_on_from_length 120 resolution []) as Hlen.
    destruct (split_on_from 120 resolution []) as [| a [| b [| c l]]];
      simpl in *; try done. lia.
  - intros Hfirst Hsecond. unfold PoemTokCLI.parse_resolution, split_on.
    assert (forall piece, split_on_from 120 (first ++ [120] ++ second) piece
                          = [piece ++ first; second]) as ->.
    { clear -Hfirst Hsecond. induction first as [| c first IH]; intros piece.
      - simpl. rewrite app_nil_r.
        by rewrite (split_on_from_no_sep 120 second []).
      - apply not_elem_of_cons in Hfirst as [Hc Hfirst]. simpl.
        rewrite bool_decide_eq_false_2 by done.
        by rewrite IH, <- (assoc_L (++)). }
    simpl. destruct (int first); simpl; [| done]. by destruct (int second).
Qed.

End Styling.

(** ** poemtok_advanced.py: escaping *)

Section Escaping.
Import PyStr.

Lemma replace_app (old : Z) (new a b : str) :
  replace old new (a ++ b) = replace old new a ++ replace old new b.
Proof. unfold replace. by rewrite fmap_app, concat_app. Qed.

Lemma escape_cons (c : Z) (line : str) :
  Advanced.escape (c :: line)
  = (if bool_decide (c = 92 \/ c = 123 \/ c = 125) then [92; c] else [c])
    ++ Advanced.escape line.
Proof.
  unfold Advanced.escape.
  change (c :: line) with ([c] ++ line). rewrite !replace_app. f_equal.
  destruct (decide (c = 92)) as [-> | Hbackslash]; [done |].
  destruct (decide (c = 123)) as [-> | Hopen]; [done |].
  destruct (decide (c = 125)) as [-> | Hclose]; [done |].
  rewrite (bool_decide_eq_false_2 (c = 92 \/ _)) by tauto.
  unfold replace. simpl.
  rewrite (bool_decide_eq_false_2 (c = 92)) by done. simpl.
  rewrite (bool_decide_eq_false_2 (c = 123)) by done. simpl.
  by rewrite (bool_decide_eq_false_2 (c = 125)) by done.
Qed.

(** X14.  The three replaces of [create_advanced_subtitle] escape a line
    character by character: a backslash or a brace gets one backslash
    before it and every other character stays, so the backslashes that
    escape the braces are not escaped again; and two lines with the
    same escaped text are the same line. *)
Theorem advanced_escape_charwise (line : str) :
  Advanced.escape line
  = concat ((fun c => if bool_decide (c = 92 \/ c = 123 \/ c = 125)
                      then [92; c] else [c]) <$> line) /\
  (forall other, Advanced.escape other = Advanced.escape line -> other = line).
Proof.
  split.
  - induction line as [| c line IH]; [done |].
    rewrite escape_cons, IH. done.
  - induction line as [| c line IH]; intros other Heq.
    + destruct other as [| d other]; [done |].
      rewrite escape_cons in Heq. by case_bool_decide.
    + destruct other as [| d other].
      { rewrite escape_cons in Heq. by case_bool_decide. }
      rewrite !escape_cons in Heq.
      destruct (bool_decide (d = 92 \/ d = 123 \/ d = 125)) eqn:Hd;
        destruct (bool_decide (c = 92 \/ c = 123 \/ c = 125)) eqn:Hc;
        simpl in Heq.
      * injection Heq as -> Heq. f_equal. by apply IH.
      * injection Heq as <- Heq.
        apply bool_decide_eq_false_1 in Hc. exfalso. apply Hc. by left.
      * injection Heq as -> Heq.
        apply bool_decide_eq_false_1 in Hd. exfalso. apply Hd. by left.
      * injection Heq as -> Heq. f_equal. by apply IH.
Qed.

End Escaping.

(** ** poemtok_screenshot.py: two inputs with one base name *)

Section SharedNames.
Import PIL PyList ScreenshotBatch.

(** The files the first loop of [process_images] leaves in the
    temporary directory. *)
Lemma processed_files (w : world) (A : Z) (image_paths : list path) :
  Forall (fun image_path => well_formed (gray_image w image_path))
    image_paths ->
  background_alpha (bg_opacity w) = Ok A ->
  forall processed_images temp_dir,
  exists files,
    for_each (add_processed w) image_paths (processed_images, temp_dir)
    = Ok (processed_images
            ++ ((fun image_path =>
                   ("processed_" +:+ basename image_path)%string)
                <$> image_paths),
          files) /\
    forall name,
      files !! ("processed_" +:+ name)%string
      = match last_named name image_paths with
        | Some image_path =>
            Some (Spec.recolor (Spec.recolor_pixel_3 200 A)
                    (gray_image w image_path))
        | None => temp_dir !! ("processed_" +:+ name)%string
        end.
Proof.
  intros Hwf HA. induction Hwf as [| image_path image_paths Hpath _ IH];
    intros processed_images temp_dir.
  - exists temp_dir. simpl. by rewrite app_nil_r.
  - destruct (IH (processed_images
                    ++ [("processed_" +:+ basename image_path)%string])
                (<[("processed_" +:+ basename image_path)%string :=
                     Spec.recolor (Spec.recolor_pixel_3 200 A)
                       (gray_image w image_path)]> temp_dir))
      as (files & Hloop & Hfiles).
    exists files. split.
    + assert (add_processed w image_path (processed_images, temp_dir)
              = Ok (processed_images
                      ++ [("processed_" +:+ basename image_path)%string],
                    <[("processed_" +:+ basename image_path)%string :=
                        Spec.recolor (Spec.recolor_pixel_3 200 A)
                          (gray_image w image_path)]> temp_dir)) as Hstep.
      { unfold add_processed, process_image.
        by rewrite (Screenshot_refines _ _ A Hpath HA). }
      cbn [for_each]. rewrite Hstep. unfold mbind, result_bind.
      rewrite Hloop. by rewrite <- (assoc_L (++)).
    + intros name. rewrite Hfiles. unfold last_named.
      rewrite filter_cons. destruct (decide (basename image_path = name))
        as [<- | Hother].
      * destruct (filter _ image_paths) as [| p l] eqn:Hrest; simpl.
        -- by rewrite lookup_insert_eq.
        -- destruct (last (p :: l)) eqn:Hlast; [done |].
           by apply last_None in Hlast.
      * rewrite lookup_insert_ne; [done |].
        simpl. by intros [= ?].
Qed.

(** The second loop of [process_images], over processed images whose
    files hold [shown]. *)
Lemma video_loop (w : world) (files : gmap string (image rgba))
    (shown : path -> option (image rgba)) (image_paths : list path) :
  (forall image_path, image_path ∈ image_paths ->
     files !! ("processed_" +:+ basename image_path)%string
     = shown image_path) ->
  forall (idx : nat -> Z) output_videos,
  for_each_io (add_video w files)
    (imap (fun i name => (idx i, name))
       ((fun image_path => ("processed_" +:+ basename image_path)%string)
        <$> image_paths))
    output_videos
  = Io ((fun image_path =>
           ffmpeg (shown image_path)
             (splitext w ("processed_" +:+ basename image_path)
              +:+ "_video.mp4"))
        <$> image_paths)
       (Ok (output_videos
            ++ omap (fun '(i, image_path) =>
                       if returncode w i =? 0
                       then Some (splitext w
                                    ("processed_" +:+ basename image_path)
                                  +:+ "_video.mp4")%string
                       else None)
                 (imap (fun i image_path => (idx i, image_path))
                    image_paths))).
Proof.
  induction image_paths as [| image_path image_paths IH];
    intros Hfiles idx output_videos.
  - simpl. by rewrite app_nil_r.
  - cbn [fmap list_fmap imap for_each_io omap list_omap].
    change ((fun (i : nat) (name : string) => (idx i, name)) ∘ Datatypes.S)
      with (fun (i : nat) (name : string) => ((idx ∘ Datatypes.S) i, name)).
    change ((fun (i : nat) (p : path) => (idx i, p)) ∘ Datatypes.S)
      with (fun (i : nat) (p : path) => ((idx ∘ Datatypes.S) i, p)).
    assert (add_video w files
              (idx 0%nat, ("processed_" +:+ basename image_path)%string)
              output_videos
            = Io [ffmpeg (shown image_path)
                    (splitext w ("processed_" +:+ basename image_path)
                     +:+ "_video.mp4")]
                 (Ok (output_videos
                      ++ option_list
                           (if returncode w (idx 0%nat) =? 0
                            then Some (splitext w
                                         ("processed_"
                                          +:+ basename image_path)
                                       +:+ "_video.mp4")%string
                            else None)))) as Hstep.
    { unfold add_video, create_video_with_image, call, check_returncode,
        try_except.
      rewrite (Hfiles image_path) by by left.
      destruct (returncode w _ =? 0); unfold mbind, io_bind; simpl;
        by rewrite ?app_nil_r. }
    rewrite Hstep. unfold mbind, io_bind. cbn [outcome trace].
    rewrite IH by (intros p Hp; apply Hfiles; by right).
    cbn [outcome trace app]. f_equal. f_equal.
    rewrite <- (assoc_L (++)). f_equal.
    by destruct (returncode w _ =? 0).
Qed.

(** X15.  [process_images] processes every image before it makes the
    first video, and keeps the processed images in one directory under
    [processed_<base name>].  So the video made for an input shows the
    processed image of the last input of the batch with the same base
    name; only when no later input has that base name is it the
    input's own.  One command runs per input, and the videos returned
    are those of the commands that exited with 0.  The background
    alpha is one an 8-bit band holds. *)
Theorem screenshot_shared_basename (w : world) (A : Z)
    (image_paths : list path) (temp_dir : gmap string (image rgba)) :
  Forall (fun image_path => well_formed (gray_image w image_path))
    image_paths ->
  background_alpha (bg_opacity w) = Ok A ->
  0 <= A <= 255 ->
  let video_of image_path :=
    ffmpeg
      (Spec.recolor (Spec.recolor_pixel_3 200 A) ∘ gray_image w
       <$> last_named (basename image_path) image_paths)
      (splitext w ("processed_" +:+ basename image_path) +:+ "_video.mp4") in
  process_images w image_paths temp_dir
  = Io (video_of <$> image_paths)
       (Ok (omap (fun '(i, image_path) =>
                    if returncode w i =? 0
                    then Some (splitext w
                                 ("processed_" +:+ basename image_path)
                               +:+ "_video.mp4")%string
                    else None)
              (enumerate image_paths))) /\
  forall image_path,
    image_path ∈ image_paths ->
    exists shown,
      shown ∈ image_paths /\ basename shown = basename image_path /\
      last_named (basename image_path) image_paths = Some shown.
Proof.
  intros Hwf HA _ video_of.
  assert (forall image_path, image_path ∈ image_paths ->
            exists shown,
              shown ∈ image_paths /\ basename shown = basename image_path /\
              last_named (basename image_path) image_paths = Some shown)
    as Hshown.
  { intros image_path Hin. unfold last_named.
    destruct (last (filter _ image_paths)) as [shown |] eqn:Hlast.
    - exists shown. apply last_Some_elem_of, list_elem_of_filter in Hlast.
      by destruct Hlast.
    - apply last_None in Hlast.
      assert (image_path ∈ filter
                (fun q => basename q = basename image_path) image_paths)
        as Hmem by by apply list_elem_of_filter.
      rewrite Hlast in Hmem. by apply elem_of_nil in Hmem. }
  split; [| exact Hshown].
  unfold process_images.
  destruct (processed_files w A image_paths Hwf HA [] temp_dir)
    as (files & -> & Hfiles).
  unfold mbind at 1, io_bind at 1. cbn [outcome trace app].
  unfold enumerate. rewrite (video_loop w files
    (fun image_path =>
       Spec.recolor (Spec.recolor_pixel_3 200 A) ∘ gray_image w
       <$> last_named (basename image_path) image_paths)); [done |].
  intros image_path Hin. rewrite Hfiles.
  by destruct (Hshown image_path Hin) as (shown & _ & _ & ->).
Qed.

Lemma screenshot_shared_basename_witness :
  Forall (fun image_path => well_formed (gray_image Batch.world image_path))
    Batch.image_paths /\
  background_alpha (bg_opacity Batch.world) = Ok 204 /\
  0 <= 204 <= 255 /\
  process_images Batch.world Batch.image_paths ∅
  = Io [ffmpeg (Some (Spec.recolor (Spec.recolor_pixel_3 200 204)
                        Sample.other_grid))
          "processed_p_video.mp4";
        ffmpeg (Some (Spec.recolor (Spec.recolor_pixel_3 200 204)
                        Sample.other_grid))
          "processed_p_video.mp4"]
       (Ok ["processed_p_video.mp4"; "processed_p_video.mp4"]%string).
Proof.
  assert (Forall (fun image_path =>
                    well_formed (gray_image Batch.world image_path))
            Batch.image_paths) as Hwf.
  { apply Forall_cons. split; [reflexivity |].
    apply Forall_singleton. reflexivity. }
  assert (background_alpha (bg_opacity Batch.world) = Ok 204) as HA
    by (vm_compute; reflexivity).
  split; [exact Hwf |]. split; [exact HA |]. split; [lia |].
  apply (screenshot_shared_basename Batch.world 204 Batch.image_paths ∅
           Hwf HA).
  lia.
Defined.

End SharedNames.

(** ** take_screenshots.py: the fallback *)

Section Screenshots.
Import PyList TakeScreenshots.

(** The loop of the fallback never raises; it returns the pages that
    matplotlib rendered. *)
Lemma fallback_loop (w : world) (pages : list Z) : forall image_paths,
  outcome (for_each_io (render_page w) pages image_paths)
  = Ok (image_paths
        ++ filter (fun page_num => returned (render w page_num)) pages).
Proof.
  induction pages as [| page_num pages IH]; intros image_paths.
  - simpl. by rewrite app_nil_r.
  - rewrite filter_cons. cbn [for_each_io].
    assert (render_page w page_num image_paths
            = Io [savefig page_num]
                 (Ok (image_paths
                      ++ (if returned (render w page_num)
                          then [page_num] else [])))) as ->.
    { unfold render_page, try_except, call, mbind, io_bind.
      cbn [outcome trace].
      destruct (render w page_num) as [[] | e]; simpl; [done |].
      by rewrite app_nil_r. }
    unfold mbind, io_bind. cbn [outcome trace]. rewrite IH.
    destruct (returned (render w page_num)) eqn:Hrender.
    + rewrite decide_True by done.
      by rewrite <- (assoc_L (++)).
    + rewrite decide_False by (intros []).
      by rewrite app_nil_r.
Qed.

(** The loop of the first method when every save returns. *)
Lemma save_loop_returns (w : world) (start_page : Z)
    (images : list (PIL.image PIL.rgba)) : forall (idx : nat -> Z) image_paths,
  (forall i, (i < length images)%nat ->
     returned (save w (idx i + start_page)) = true) ->
  for_each_io (save_image w start_page)
    (imap (fun i image => (idx i, image)) images) image_paths
  = Io (imap (fun i _ => image_save (idx i + start_page)) images)
       (Ok (image_paths ++ imap (fun i _ => idx i + start_page) images)).
Proof.
  induction images as [| image images IH]; intros idx image_paths Hsave.
  - simpl. by rewrite app_nil_r.
  - cbn [imap for_each_io].
    change ((fun (i : nat) (image : PIL.image PIL.rgba) => (idx i, image))
            ∘ Datatypes.S)
      with (fun (i : nat) (image : PIL.image PIL.rgba) =>
              ((idx ∘ Datatypes.S) i, image)).
    assert (save_image w start_page (idx 0%nat, image) image_paths
            = Io [image_save (idx 0%nat + start_page)]
                 (Ok (image_paths ++ [idx 0%nat + start_page]))) as ->.
    { pose proof (Hsave 0%nat ltac:(simpl; lia)) as Hfirst.
      unfold save_image, call, mbind, io_bind. cbn [outcome trace].
      by destruct (save w (idx 0%nat + start_page)) as [[] | e]. }
    unfold mbind, io_bind. cbn [outcome trace].
    rewrite IH by (intros i Hi; apply Hsave; simpl; lia).
    cbn [outcome trace app]. by rewrite <- (assoc_L (++)).
Qed.

(** The loop of the first method raises when a save raises. *)
Lemma save_loop_raises (w : world) (start_page : Z)
    (images : list (PIL.image PIL.rgba)) : forall (idx : nat -> Z) image_paths i,
  (i < length images)%nat ->
  returned (save w (idx i + start_page)) = false ->
  exists e,
    outcome (for_each_io (save_image w start_page)
               (imap (fun i image => (idx i, image)) images) image_paths)
    = Raise e.
Proof.
  induction images as [| image images IH]; intros idx image_paths i Hi Hsave;
    [simpl in Hi; lia |].
  cbn [imap for_each_io].
  change ((fun (i : nat) (image : PIL.image PIL.rgba) => (idx i, image))
          ∘ Datatypes.S)
    with (fun (i : nat) (image : PIL.image PIL.rgba) =>
            ((idx ∘ Datatypes.S) i, image)).
  destruct (save w (idx 0%nat + start_page)) as [[] | e] eqn:Hfirst.
  - assert (save_image w start_page (idx 0%nat, image) image_paths
            = Io [image_save (idx 0%nat + start_page)]
                 (Ok (image_paths ++ [idx 0%nat + start_page]))) as ->.
    { unfold save_image, call, mbind, io_bind. cbn [outcome trace].
      by rewrite Hfirst. }
    unfold mbind, io_bind. cbn [outcome trace].
    destruct i as [| i]; [by rewrite Hfirst in Hsave |].
    apply (IH (idx ∘ Datatypes.S) _ i); [simpl in Hi; lia | done].
  - exists e. unfold mbind, io_bind, save_image, call, mbind, io_bind.
    cbn [outcome trace]. by rewrite Hfirst.
Qed.

Lemma imap_range {B} (f : Z -> B) {A} (l : list A) (start_page : Z) :
  imap (fun i _ => f (Z.of_nat i + start_page)) l
  = f <$> range start_page (start_page + Z.of_nat (length l)).
Proof.
  unfold range. rewrite <- list_fmap_compose.
  replace (Z.to_nat (start_page + Z.of_nat (length l) - start_page))
    with (length l) by lia.
  rewrite (imap_seq_0 l (fun i => f (Z.of_nat i + start_page))).
  apply list_fmap_ext. intros _ k _. simpl. f_equal. lia.
Qed.

(** X16.  [save_pdf_pages_as_images] does not raise once the page count
    is read.  When pdf2image returns and every image is saved, one name
    per image is returned, numbered from the adjusted start page.  When
    pdf2image raises, or a save does, the names are those of the pages
    of the adjusted range that the fallback rendered, and no more: an
    image the first method saved before it failed is returned only if
    the fallback rendered the page again. *)
Theorem screenshots_fallback (w : world) (start_page : Z)
    (end_page : option Z) :
  let first_page :=
    (PageRange.adjust (Z.of_nat (total_pages w)) start_page end_page).1 in
  let last_page :=
    (PageRange.adjust (Z.of_nat (total_pages w)) start_page end_page).2 in
  let fallback :=
    filter (fun page_num => returned (render w page_num))
      (range first_page (last_page + 1)) in
  (exists image_paths,
     outcome (save_pdf_pages_as_images w start_page end_page)
     = Ok image_paths) /\
  (forall pages,
     images w first_page last_page = Ok pages ->
     (forall page_num,
        first_page <= page_num < first_page + Z.of_nat (length pages) ->
        returned (save w page_num) = true) ->
     save_pdf_pages_as_images w start_page end_page
     = Io (convert_from_path first_page last_page
           :: (image_save
               <$> range first_page (first_page + Z.of_nat (length pages))))
          (Ok (range first_page (first_page + Z.of_nat (length pages))))) /\
  (forall e,
     images w first_page last_page = Raise e ->
     outcome (save_pdf_pages_as_images w start_page end_page) = Ok fallback) /\
  (forall pages page_num,
     images w first_page last_page = Ok pages ->
     first_page <= page_num < first_page + Z.of_nat (length pages) ->
     returned (save w page_num) = false ->
     outcome (save_pdf_pages_as_images w start_page end_page) = Ok fallback).
Proof.
  intros first_page last_page fallback. subst first_page last_page fallback.
  unfold save_pdf_pages_as_images.
  destruct (PageRange.adjust _ _ _) as [first_page last_page].
  cbn [fst snd].
  pose proof (fallback_loop w (range first_page (last_page + 1)) []) as Hloop.
  rewrite app_nil_l in Hloop.
  split_and!.
  - unfold try_except. destruct (outcome (_ ≫= _)) as [a | e] eqn:Hfirst.
    + by exists a.
    + cbn [any_Exception outcome]. by eexists.
  - intros pages Hpages Hsave. unfold try_except, enumerate.
    unfold mbind at 1 2, io_bind at 1 2, call. rewrite Hpages.
    cbn [outcome trace].
    rewrite (save_loop_returns w first_page pages Z.of_nat []).
    + cbn [outcome trace app]. f_equal.
      * f_equal. apply (imap_range image_save).
      * f_equal. rewrite <- (list_fmap_id (range _ _)).
        apply (imap_range id).
    + intros i Hi. apply Hsave. lia.
  - intros e Himages. unfold try_except.
    unfold mbind at 1, io_bind at 1, call. rewrite Himages.
    cbn [outcome any_Exception]. done.
  - intros pages page_num Hpages Hpage Hsave. unfold try_except, enumerate.
    unfold mbind at 1, io_bind at 1, call. rewrite Hpages.
    cbn [outcome trace].
    destruct (save_loop_raises w first_page pages Z.of_nat []
                (Z.to_nat (page_num - first_page))) as [e ->].
    + lia.
    + by replace (Z.of_nat (Z.to_nat (page_num - first_page)) + first_page)
        with page_num by lia.
    + cbn [any_Exception outcome]. done.
Qed.

End Screenshots.
